(** * passman.py: the JSON-backed credential store

    A shallow embedding of [src/passman.py]: the schema validator, the
    normalisation of site keys, the CRUD operations and the read-only
    queries ([search_entries], [stats], [list_entries]), the format of the
    time stamps, the files ([init_store], [load_store], [save_store],
    [export_csv]) and the commands of [main], followed by the properties of
    the store engine and of the commands.

    Conventions of the embedding.
    - A Python [str] is a Rocq [string]; its characters are read as the code
      points U+0000..U+00FF.  On that range [str.isspace] and [str.lower]
      are the tables [isspace] and [lower_char] below, and comparing two
      strings compares their code points, which is [String.compare].
    - A Python [dict] is an association list in insertion order, as
      [dict.items()] yields it; Python keeps its keys distinct ([dict_wf]).
    - [sys.exit(msg)] is the outcome [SysExit msg]; the store is a mutable
      object, so the world reached by a command that exits is part of its
      result.
    - [now_iso()] reads a clock: the world carries the readings that the
      successive calls return.
    - A file is held as what was written to it: the document given to
      [json.dump], which [json.load] returns, or the rows given to
      [csv.writer]; paths are compared as strings.  [print] is held as the
      list of its calls with their arguments.  [parse_args] is not
      modelled: the commands take the parsed arguments. *)

From Stdlib Require Import List String Ascii Bool Arith ZArith NArith QArith Lia.
From Stdlib Require Import Sorting.Sorted Sorting.Permutation.
From Stdlib Require Import Structures.OrderedTypeEx.
From Stdlib Require Import DecimalString.
Import ListNotations.

Local Open Scope string_scope.
Local Open Scope list_scope.

(* ================================================================== *)
(** ** Strings *)

Module Str.

(** [str.isspace] on one character. *)
Definition isspace (c : ascii) : bool :=
  let n := N_of_ascii c in
  ((9 <=? n) && (n <=? 13) || (28 <=? n) && (n <=? 32)
   || (n =? 133) || (n =? 160))%N.

(** [str.lower] on one character: A-Z, and the upper-case letters
    U+00C0..U+00DE except the multiplication sign U+00D7. *)
Definition lower_char (c : ascii) : ascii :=
  let n := N_of_ascii c in
  if ((65 <=? n) && (n <=? 90)
      || (192 <=? n) && (n <=? 222) && negb (n =? 215))%N
  then ascii_of_N (n + 32) else c.

(** [s.lower()] *)
Fixpoint lower (s : string) : string :=
  match s with
  | EmptyString => EmptyString
  | String c s' => String (lower_char c) (lower s')
  end.

(** [s.lstrip()] *)
Fixpoint lstrip (s : string) : string :=
  match s with
  | EmptyString => EmptyString
  | String c s' => if isspace c then lstrip s' else s
  end.

(** [s.rstrip()] *)
Fixpoint rstrip (s : string) : string :=
  match s with
  | EmptyString => EmptyString
  | String c s' =>
      match rstrip s' with
      | EmptyString => if isspace c then EmptyString else String c EmptyString
      | r => String c r
      end
  end.

(** [s.strip()] *)
Definition strip (s : string) : string := rstrip (lstrip s).

(** [k in s] for two strings: [k] occurs in [s] as a contiguous run. *)
Fixpoint contains (k s : string) : bool :=
  String.prefix k s
  || match s with
     | EmptyString => false
     | String _ s' => contains k s'
     end.

(** Truth value of a string: [not s] holds for the empty string only. *)
Definition truthy (s : string) : bool :=
  match s with EmptyString => false | _ => true end.

(** Every character of [s] is white space. *)
Fixpoint all_space (s : string) : bool :=
  match s with
  | EmptyString => true
  | String c s' => isspace c && all_space s'
  end.

End Str.

(** [normalize_site(s)]: [s.strip().lower()] *)
Definition normalize_site (s : string) : string := Str.lower (Str.strip s).

(* ================================================================== *)
(** ** Dictionaries with string keys, in insertion order *)

Definition dict (V : Type) : Type := list (string * V).

Section Dict.
Context {V : Type}.

(** [d.get(k)] *)
Fixpoint dict_get (k : string) (d : dict V) : option V :=
  match d with
  | [] => None
  | (k', v) :: d' => if String.eqb k k' then Some v else dict_get k d'
  end.

(** [k in d] *)
Definition dict_in (k : string) (d : dict V) : bool :=
  match dict_get k d with Some _ => true | None => false end.

(** [d[k] = v]: an existing key keeps its place, a new key goes last. *)
Fixpoint dict_set (k : string) (v : V) (d : dict V) : dict V :=
  match d with
  | [] => [(k, v)]
  | (k', v') :: d' =>
      if String.eqb k k' then (k', v) :: d' else (k', v') :: dict_set k v d'
  end.

(** [del d[k]] on a dictionary that has the key. *)
Fixpoint dict_del (k : string) (d : dict V) : dict V :=
  match d with
  | [] => []
  | (k', v') :: d' =>
      if String.eqb k k' then d' else (k', v') :: dict_del k d'
  end.

(** [len(d)] *)
Definition dict_len (d : dict V) : Z := Z.of_nat (List.length d).

Definition dict_keys (d : dict V) : list string := List.map fst d.

(** The keys of a Python dictionary are pairwise distinct. *)
Definition dict_wf (d : dict V) : Prop := NoDup (dict_keys d).

End Dict.

(* ================================================================== *)
(** ** The document *)

(** One record of [entries]. *)
Record Entry : Type := mkEntry {
  username : string;
  password : string;
  last_updated : string
}.

Record Metadata : Type := mkMetadata {
  version : Z;
  created_at : string;
  updated_at : string;
  count : Z
}.

Record Store : Type := mkStore {
  metadata : Metadata;
  entries : dict Entry
}.

Definition with_username (u : string) (e : Entry) : Entry :=
  mkEntry u (password e) (last_updated e).
Definition with_password (p : string) (e : Entry) : Entry :=
  mkEntry (username e) p (last_updated e).
Definition with_last_updated (t : string) (e : Entry) : Entry :=
  mkEntry (username e) (password e) t.

Definition with_count (n : Z) (m : Metadata) : Metadata :=
  mkMetadata (version m) (created_at m) (updated_at m) n.
Definition with_updated_at (t : string) (m : Metadata) : Metadata :=
  mkMetadata (version m) (created_at m) t (count m).

(** The cross-field invariant of the document:
    [metadata.count == len(entries)]. *)
Definition count_ok (s : Store) : Prop :=
  count (metadata s) = dict_len (entries s).

(* ================================================================== *)
(** ** Commands: state, clock and [sys.exit] *)

(** The world a command runs in: the store object, the clock and the number
    of times the clock has been read. *)
Record World : Type := mkWorld {
  w_store : Store;
  w_clock : nat -> string;
  w_reads : nat
}.

(** How a command ends: it returns, it leaves through [sys.exit(msg)], or it
    raises [KeyError]. *)
Inductive outcome (A : Type) : Type :=
| Done (a : A)
| SysExit (msg : string)
| KeyError (key : string).

Arguments Done {A} a.
Arguments SysExit {A} msg.
Arguments KeyError {A} key.

Definition Cmd (A : Type) : Type := World -> outcome A * World.

Definition ret {A} (a : A) : Cmd A := fun w => (Done a, w).

Definition bind {A B} (c : Cmd A) (k : A -> Cmd B) : Cmd B :=
  fun w =>
    match c w with
    | (Done a, w') => k a w'
    | (SysExit msg, w') => (SysExit msg, w')
    | (KeyError key, w') => (KeyError key, w')
    end.

Definition sys_exit {A} (msg : string) : Cmd A := fun w => (SysExit msg, w).

Declare Scope cmd_scope.
Delimit Scope cmd_scope with cmd.
Notation "x <- c ;; k" := (bind c (fun x => k))
  (at level 61, c at next level, right associativity) : cmd_scope.
Notation "c ;; k" := (bind c (fun _ => k))
  (at level 61, right associativity) : cmd_scope.
Local Open Scope cmd_scope.

Definition set_store (s : Store) (w : World) : World :=
  mkWorld s (w_clock w) (w_reads w).

(** [now_iso()]: the next reading of the clock. *)
Definition now_iso : Cmd string :=
  fun w => (Done (w_clock w (w_reads w)),
            mkWorld (w_store w) (w_clock w) (S (w_reads w))).

(** [store["entries"]], read. *)
Definition get_entries : Cmd (dict Entry) :=
  fun w => (Done (entries (w_store w)), w).

(** [entries[k] = e] *)
Definition entries_setitem (k : string) (e : Entry) : Cmd unit :=
  fun w =>
    let s := w_store w in
    (Done tt, set_store (mkStore (metadata s) (dict_set k e (entries s))) w).

(** [entries[k][field] = value], as a change [f] of the record under [k]. *)
Definition entry_setfield (k : string) (f : Entry -> Entry) : Cmd unit :=
  fun w =>
    let s := w_store w in
    match dict_get k (entries s) with
    | Some e =>
        (Done tt, set_store (mkStore (metadata s) (dict_set k (f e) (entries s))) w)
    | None => (KeyError k, w)
    end.

(** [del entries[k]] *)
Definition entries_delitem (k : string) : Cmd unit :=
  fun w =>
    let s := w_store w in
    if dict_in k (entries s)
    then (Done tt, set_store (mkStore (metadata s) (dict_del k (entries s))) w)
    else (KeyError k, w).

(** [store["metadata"][field] = value], as a change [f] of the metadata. *)
Definition metadata_setfield (f : Metadata -> Metadata) : Cmd unit :=
  fun w =>
    let s := w_store w in
    (Done tt, set_store (mkStore (f (metadata s)) (entries s)) w).

(* ================================================================== *)
(** ** CRUD *)

(** [add_entry(store, site, username, password)] *)
Definition add_entry (site : option string) (username password : string)
  : Cmd unit :=
  match site with
  | None => sys_exit "add: site is required."
  | Some site =>
      let site_key := normalize_site site in
      if negb (Str.truthy username) || negb (Str.truthy password)
      then sys_exit "add: username and password cannot be empty."
      else
        es <- get_entries ;;
        if dict_in site_key es
        then sys_exit ("add: entry for '" ++ site_key
                       ++ "' already exists. Use 'update' instead.")
        else
          t <- now_iso ;;
          entries_setitem site_key (mkEntry username password t) ;;
          es' <- get_entries ;;
          metadata_setfield (with_count (dict_len es')) ;;
          t' <- now_iso ;;
          metadata_setfield (with_updated_at t')
  end.

(** [get_entry(store, site)] *)
Definition get_entry (site : option string) : Cmd (option Entry) :=
  match site with
  | None => sys_exit "get: site is required."
  | Some site =>
      let site_key := normalize_site site in
      es <- get_entries ;;
      ret (dict_get site_key es)
  end.

(** [update_entry(store, site, username=None, password=None)] *)
Definition update_entry (site : option string) (username password : option string)
  : Cmd unit :=
  match site with
  | None => sys_exit "update: site is required."
  | Some site =>
      match username, password with
      | None, None =>
          sys_exit "update: nothing to update (provide --username and/or --password)."
      | _, _ =>
          let site_key := normalize_site site in
          es <- get_entries ;;
          if negb (dict_in site_key es)
          then sys_exit ("update: no entry found for '" ++ site_key ++ "'.")
          else
            match username with
            | None => ret tt
            | Some u =>
                if negb (Str.truthy u)
                then sys_exit "update: username cannot be empty."
                else entry_setfield site_key (with_username u)
            end ;;
            match password with
            | None => ret tt
            | Some p =>
                if negb (Str.truthy p)
                then sys_exit "update: password cannot be empty."
                else entry_setfield site_key (with_password p)
            end ;;
            t <- now_iso ;;
            entry_setfield site_key (with_last_updated t) ;;
            t' <- now_iso ;;
            metadata_setfield (with_updated_at t')
      end
  end.

(** [delete_entry(store, site)] *)
Definition delete_entry (site : option string) : Cmd unit :=
  match site with
  | None => sys_exit "delete: site is required."
  | Some site =>
      let site_key := normalize_site site in
      es <- get_entries ;;
      if negb (dict_in site_key es)
      then sys_exit ("delete: no entry found for '" ++ site_key ++ "'.")
      else
        entries_delitem site_key ;;
        es' <- get_entries ;;
        metadata_setfield (with_count (dict_len es')) ;;
        t <- now_iso ;;
        metadata_setfield (with_updated_at t)
  end.

(* ================================================================== *)
(** ** Listing, search and statistics *)

(** [list.sort(key=...)] with keys compared as strings.  Python's sort is
    stable, and the stable arrangement of a list by a total preorder is
    unique; insertion from the right computes it. *)
Section Sort.
Context {A : Type} (key : A -> string).

Fixpoint insert_by (x : A) (l : list A) : list A :=
  match l with
  | [] => [x]
  | y :: l' =>
      if String.leb (key x) (key y) then x :: l else y :: insert_by x l'
  end.

Definition sort_by (l : list A) : list A := fold_right insert_by [] l.

(** The order in which [sort_by] arranges a list. *)
Definition key_le (x y : A) : Prop := String.leb (key x) (key y) = true.
End Sort.

(** [list_entries(store, sort_key="site")] *)
Definition list_entries (s : Store) (sort_key : string)
  : list (string * string * string) :=
  let rows :=
    List.map (fun item => (fst item, username (snd item), last_updated (snd item)))
             (entries s) in
  if String.eqb sort_key "last_updated"
  then sort_by (fun t => snd t) rows
  else sort_by (fun t => fst (fst t)) rows.

(** The test of the loop of [search_entries]:
    [k in site.lower() or k in rec["username"].lower()]. *)
Definition search_hit (k : string) (site : string) (rec : Entry) : bool :=
  Str.contains k (Str.lower site) || Str.contains k (Str.lower (username rec)).

(** The loop of [search_entries] over [entries.items()], appending to
    [hits]. *)
Fixpoint search_loop (k : string) (items : dict Entry) (hits : list string)
  : list string :=
  match items with
  | [] => hits
  | (site, rec) :: rest =>
      search_loop k rest (if search_hit k site rec then hits ++ [site] else hits)
  end.

(** [search_entries(store, keyword)]; an absent keyword is [None]. *)
Definition search_entries (s : Store) (keyword : option string) : list string :=
  match keyword with
  | None => []
  | Some keyword =>
      if negb (Str.truthy keyword) then []
      else
        let k := Str.lower keyword in
        let hits := search_loop k (entries s) [] in
        sort_by (fun x => x) hits
  end.

(** [min(times)] and [max(times)] on strings: the first smallest and the
    first largest item; [None] stands for the [ValueError] of an empty
    argument. *)
Fixpoint min_from (best : string) (l : list string) : string :=
  match l with
  | [] => best
  | x :: l' => min_from (if String.ltb x best then x else best) l'
  end.

Fixpoint max_from (best : string) (l : list string) : string :=
  match l with
  | [] => best
  | x :: l' => max_from (if String.ltb best x then x else best) l'
  end.

Definition py_min (l : list string) : option string :=
  match l with [] => None | x :: l' => Some (min_from x l') end.

Definition py_max (l : list string) : option string :=
  match l with [] => None | x :: l' => Some (max_from x l') end.

(** [sum(ns)] *)
Definition py_sum (ns : list Z) : Z := fold_left Z.add ns 0%Z.

(** The dictionary that [stats] returns.  [avg_password_length] is held as
    the exact quotient; Python's [/] returns the float nearest to it, and
    [0.0] is the quotient [0]. *)
Record Stats : Type := mkStats {
  st_count : Z;
  st_oldest : option string;
  st_newest : option string;
  st_avg_password_length : Q
}.

(** [stats(store)] *)
Definition stats (s : Store) : Stats :=
  let es := entries s in
  let total := dict_len es in
  if (total =? 0)%Z then mkStats 0 None None 0
  else
    let times := List.map (fun item => last_updated (snd item)) es in
    let pw_lengths :=
      List.map (fun item => Z.of_nat (String.length (password (snd item)))) es in
    let oldest := py_min times in
    let newest := py_max times in
    let avg_len :=
      (inject_Z (py_sum pw_lengths) / inject_Z (Z.of_nat (List.length pw_lengths)))%Q in
    mkStats total oldest newest avg_len.

(* ================================================================== *)
(** ** The schema validator *)

(** What [json.load] returns.  The keys of a JSON object are strings. *)
#[warnings="-register-all"]
Inductive pyval : Type :=
| PNone
| PBool (b : bool)
| PInt (n : Z)
| PFloat (mantissa exponent : Z)
| PStr (s : string)
| PList (l : list pyval)
| PDict (d : list (string * pyval)).

(** The classes that the validator names. *)
Inductive pytype : Type := Tint | Tstr.

(** [typ.__name__] *)
Definition type_name (typ : pytype) : string :=
  match typ with Tint => "int" | Tstr => "str" end.

(** [isinstance(v, typ)]; [bool] is a subclass of [int]. *)
Definition isinstance (v : pyval) (typ : pytype) : bool :=
  match typ, v with
  | Tint, PInt _ => true
  | Tint, PBool _ => true
  | Tstr, PStr _ => true
  | _, _ => false
  end.

(** The integer that an instance of [int] denotes; [True] is 1. *)
Definition int_value (v : pyval) : option Z :=
  match v with
  | PInt n => Some n
  | PBool b => Some (if b then 1 else 0)%Z
  | _ => None
  end.

(** [v != n] for an instance [v] of [int]. *)
Definition ne_int (v : pyval) (n : Z) : bool :=
  match int_value v with
  | Some m => negb (m =? n)%Z
  | None => true
  end.

(** The loop over the required metadata fields. *)
Fixpoint check_metadata (fields : list (string * pytype)) (meta : dict pyval)
  : outcome unit :=
  match fields with
  | [] => Done tt
  | (key, typ) :: fields' =>
      match dict_get key meta with
      | None => SysExit ("Invalid store schema: metadata missing '" ++ key ++ "'.")
      | Some v =>
          if negb (isinstance v typ)
          then SysExit ("Invalid store schema: metadata '" ++ key
                        ++ "' must be " ++ type_name typ ++ ".")
          else check_metadata fields' meta
      end
  end.

(** The loop over the required fields of the record of [site]. *)
Fixpoint check_record (site : string) (fields : list (string * pytype))
  (rec : dict pyval) : outcome unit :=
  match fields with
  | [] => Done tt
  | (key, typ) :: fields' =>
      match dict_get key rec with
      | None => SysExit ("Invalid store schema: entry '" ++ site
                         ++ "' missing '" ++ key ++ "'.")
      | Some v =>
          if negb (isinstance v typ)
          then SysExit ("Invalid store schema: '" ++ site ++ "." ++ key
                        ++ "' must be " ++ type_name typ ++ ".")
          else check_record site fields' rec
      end
  end.

Definition metadata_fields : list (string * pytype) :=
  [("version", Tint); ("created_at", Tstr); ("updated_at", Tstr); ("count", Tint)].

Definition record_fields : list (string * pytype) :=
  [("username", Tstr); ("password", Tstr); ("last_updated", Tstr)].

(** The loop over [entries.items()].  A key is a string, so the test
    [isinstance(site, str)] holds. *)
Fixpoint check_entries (items : dict pyval) : outcome unit :=
  match items with
  | [] => Done tt
  | (site, rec) :: items' =>
      match rec with
      | PDict r =>
          match check_record site record_fields r with
          | Done _ => check_entries items'
          | stop => stop
          end
      | _ => SysExit ("Invalid store schema: entry for '" ++ site
                      ++ "' is not an object.")
      end
  end.

(** [validate_store_schema(store)]: [Done tt] when the function returns, the
    exit message otherwise. *)
Definition validate_store_schema (store : pyval) : outcome unit :=
  match store with
  | PDict top =>
      if negb (dict_in "metadata" top) || negb (dict_in "entries" top)
      then SysExit "Invalid store schema: missing 'metadata' or 'entries'."
      else
        match dict_get "metadata" top, dict_get "entries" top with
        | Some (PDict meta), Some (PDict es) =>
            match check_metadata metadata_fields meta with
            | Done _ =>
                match check_entries es with
                | Done _ =>
                    match dict_get "count" meta with
                    | Some c =>
                        if ne_int c (dict_len es)
                        then SysExit "Invalid store schema: metadata.count does not match number of entries."
                        else Done tt
                    | None => KeyError "count"
                    end
                | stop => stop
                end
            | stop => stop
            end
        | _, _ =>
            SysExit "Invalid store schema: 'metadata' or 'entries' is not an object."
        end
  | _ => SysExit "Invalid store schema: top-level is not an object."
  end.

(** The document that [json.dump] writes for a store, read back. *)
Definition pyval_of_entry (e : Entry) : pyval :=
  PDict [("username", PStr (username e)); ("password", PStr (password e));
         ("last_updated", PStr (last_updated e))].

Definition pyval_of_store (s : Store) : pyval :=
  PDict [("metadata",
          PDict [("version", PInt (version (metadata s)));
                 ("created_at", PStr (created_at (metadata s)));
                 ("updated_at", PStr (updated_at (metadata s)));
                 ("count", PInt (count (metadata s)))]);
         ("entries",
          PDict (List.map (fun item => (fst item, pyval_of_entry (snd item)))
                          (entries s)))].

(** What the validator checks, stated on the document: the two sections are
    objects, every required field is there with its type, and the count is
    the number of entries. *)
Definition field_ok (key : string) (typ : pytype) (d : dict pyval) : Prop :=
  exists v, dict_get key d = Some v /\ isinstance v typ = true.

Definition record_ok (rec : pyval) : Prop :=
  exists r, rec = PDict r
    /\ field_ok "username" Tstr r
    /\ field_ok "password" Tstr r
    /\ field_ok "last_updated" Tstr r.

Definition schema_ok (store : pyval) : Prop :=
  exists top meta es c,
    store = PDict top
    /\ dict_get "metadata" top = Some (PDict meta)
    /\ dict_get "entries" top = Some (PDict es)
    /\ field_ok "version" Tint meta
    /\ field_ok "created_at" Tstr meta
    /\ field_ok "updated_at" Tstr meta
    /\ dict_get "count" meta = Some c
    /\ int_value c = Some (dict_len es)
    /\ Forall (fun item => record_ok (snd item)) es.

(** Some record of the document holds an empty user name or an empty
    password. *)
Definition has_empty_credential (store : pyval) : Prop :=
  exists top es site r,
    store = PDict top
    /\ dict_get "entries" top = Some (PDict es)
    /\ dict_get site es = Some (PDict r)
    /\ (dict_get "username" r = Some (PStr "")
        \/ dict_get "password" r = Some (PStr "")).

(* ================================================================== *)
(** ** Sequences of mutations *)

(** One call of the engine that changes the store. *)
Inductive op : Type :=
| OpAdd (site : option string) (username password : string)
| OpUpdate (site : option string) (username password : option string)
| OpDelete (site : option string).

Definition exec_op (o : op) : Cmd unit :=
  match o with
  | OpAdd site u p => add_entry site u p
  | OpUpdate site u p => update_entry site u p
  | OpDelete site => delete_entry site
  end.

(** The worlds reached after each call of a sequence, in order.  The
    sequence ends with the first call that does not return; the world it
    leaves is the last of the trace. *)
Fixpoint trace (ops : list op) (w : World) : list World :=
  match ops with
  | [] => []
  | o :: ops' =>
      match exec_op o w with
      | (Done _, w') => w' :: trace ops' w'
      | (_, w') => [w']
      end
  end.

(* ================================================================== *)
(** ** Vocabulary of the statements *)

(** A string that does not begin with white space. *)
Definition no_lead (s : string) : Prop :=
  match s with
  | EmptyString => True
  | String c _ => Str.isspace c = false
  end.

(** The key that a call of the engine addresses; [""] when no site is
    given. *)
Definition normalize_site_of (o : op) : string :=
  match o with
  | OpAdd (Some site) _ _ | OpUpdate (Some site) _ _ | OpDelete (Some site) =>
      normalize_site site
  | _ => ""
  end.

(** A command left through [sys.exit]. *)
Definition exited {A} (r : outcome A * World) : Prop :=
  exists msg, fst r = SysExit msg.

(** The world after a successful [add_entry]. *)
Definition added (k u p : string) (w : World) : World :=
  let s := w_store w in
  let es := dict_set k (mkEntry u p (w_clock w (w_reads w))) (entries s) in
  mkWorld
    (mkStore (with_updated_at (w_clock w (S (w_reads w)))
                (with_count (dict_len es) (metadata s)))
             es)
    (w_clock w) (S (S (w_reads w))).

(** The world after a successful [delete_entry]. *)
Definition deleted (k : string) (w : World) : World :=
  let s := w_store w in
  let es := dict_del k (entries s) in
  mkWorld
    (mkStore (with_updated_at (w_clock w (w_reads w))
                (with_count (dict_len es) (metadata s)))
             es)
    (w_clock w) (S (w_reads w)).

(** The world in which the record under [k] has been changed by [f]. *)
Definition rewritten (k : string) (f : Entry -> Entry) (w : World) : World :=
  let s := w_store w in
  match dict_get k (entries s) with
  | Some e => set_store (mkStore (metadata s) (dict_set k (f e) (entries s))) w
  | None => w
  end.

(** The world after the last two statements of [update_entry]. *)
Definition stamped (k : string) (w : World) : World :=
  let w1 := rewritten k (with_last_updated (w_clock w (w_reads w))) w in
  mkWorld
    (mkStore (with_updated_at (w_clock w (S (w_reads w))) (metadata (w_store w1)))
             (entries (w_store w1)))
    (w_clock w) (S (S (w_reads w))).

(** [k] occurs in [s]: [s] is some text, then [k], then some text. *)
Definition substring_of (k s : string) : Prop :=
  exists pre post, s = (pre ++ k ++ post)%string.

(** The test of the loop of [search_entries] on one item of
    [entries.items()]. *)
Definition hit_item (k : string) (item : string * Entry) : bool :=
  search_hit k (fst item) (snd item).

(** [t] is the least item of [l] in the order of strings. *)
Definition is_least (t : string) (l : list string) : Prop :=
  In t l /\ forall x, In x l -> String.leb t x = true.

(** [t] is the greatest item of [l] in the order of strings. *)
Definition is_greatest (t : string) (l : list string) : Prop :=
  In t l /\ forall x, In x l -> String.leb x t = true.

(** The [last_updated] strings and the password lengths of a store. *)
Definition times_of (s : Store) : list string :=
  List.map (fun item => last_updated (snd item)) (entries s).


(** Every field of the list is in [d] with its type. *)
Definition fields_ok (fields : list (string * pytype)) (d : dict pyval) : Prop :=
  Forall (fun ft => field_ok (fst ft) (snd ft) d) fields.

(* ================================================================== *)
(** ** Sample stores *)

(** A clock that advances by one second at each of its first two
    readings. *)
Definition sample_clock (n : nat) : string :=
  match n with
  | O => "2025-09-04T14:00:00Z"
  | S O => "2025-09-04T14:00:01Z"
  | _ => "2025-09-04T14:00:02Z"
  end.

(** The store that [init_store] builds. *)
Definition empty_store : Store :=
  mkStore (mkMetadata 1 "2025-09-04T13:00:00Z" "2025-09-04T13:00:00Z" 0) [].

Definition empty_world : World := mkWorld empty_store sample_clock 0.

(** A store with one record, under the key ["github.com"]. *)
Definition one_store : Store :=
  mkStore (mkMetadata 1 "2025-09-04T13:00:00Z" "2025-09-04T13:30:00Z" 1)
          [("github.com", mkEntry "alice" "secret" "2025-09-04T13:30:00Z")].

Definition one_world : World := mkWorld one_store sample_clock 0.

(** The two entries of the example of the search. *)
Definition git_store : Store :=
  mkStore (mkMetadata 1 "2025-09-04T13:00:00Z" "2025-09-04T13:40:00Z" 2)
          [("gitlab.com", mkEntry "bob" "hunter2" "2025-09-04T13:40:00Z");
           ("github.com", mkEntry "al" "secret" "2025-09-04T13:30:00Z")].

(** A document with one record whose user name is the empty string. *)
Definition blank_user_store : Store :=
  mkStore (mkMetadata 1 "2025-09-04T13:00:00Z" "2025-09-04T13:30:00Z" 1)
          [("github.com", mkEntry "" "secret" "2025-09-04T13:30:00Z")].

(* ================================================================== *)
(** ** Time stamps *)

(** What [datetime.utcnow()] returns, to the second. *)
Record datetime : Type := mkDatetime {
  dt_year : N;
  dt_month : N;
  dt_day : N;
  dt_hour : N;
  dt_minute : N;
  dt_second : N
}.

(** The character of a decimal digit. *)
Definition digit (d : N) : ascii := ascii_of_N (48 + d).

(** Two decimal digits, as [%m], [%d], [%H], [%M] and [%S] print. *)
Definition pad2 (n : N) : string :=
  String (digit (n / 10)) (String (digit (n mod 10)) EmptyString).

(** Four decimal digits, as [%Y] prints the years 1000 to 9999. *)
Definition pad4 (n : N) : string :=
  String (digit (n / 1000)) (String (digit ((n / 100) mod 10))
    (pad2 (n mod 100))).

(** [current_time_in_ISO8601()], as a function of the reading [utcnow] of
    the system clock: [utcnow.strftime("%Y-%m-%dT%H:%M:%SZ")]. *)
Definition current_time_in_ISO8601 (utcnow : datetime) : string :=
  (pad4 (dt_year utcnow) ++ "-" ++ pad2 (dt_month utcnow) ++ "-"
   ++ pad2 (dt_day utcnow) ++ "T" ++ pad2 (dt_hour utcnow) ++ ":"
   ++ pad2 (dt_minute utcnow) ++ ":" ++ pad2 (dt_second utcnow) ++ "Z")%string.

(** The instants that [datetime.utcnow()] returns at a time when the year
    has four digits. *)
Definition datetime_ok (d : datetime) : Prop :=
  (1000 <= dt_year d <= 9999 /\ 1 <= dt_month d <= 12 /\ 1 <= dt_day d <= 31
   /\ dt_hour d <= 23 /\ dt_minute d <= 59 /\ dt_second d <= 59)%N.

(** Comparison of two pairs, the first component first. *)
Definition lex (c c' : comparison) : comparison :=
  match c with Eq => c' | _ => c end.

(** Which of two instants is the earlier. *)
Definition datetime_compare (a b : datetime) : comparison :=
  lex (dt_year a ?= dt_year b)%N
   (lex (dt_month a ?= dt_month b)%N
    (lex (dt_day a ?= dt_day b)%N
     (lex (dt_hour a ?= dt_hour b)%N
      (lex (dt_minute a ?= dt_minute b)%N
           (dt_second a ?= dt_second b)%N)))).

(** The world whose clock reads the instants [utc 0], [utc 1], ... *)
Definition world_at (s : Store) (utc : nat -> datetime) : World :=
  mkWorld s (fun n => current_time_in_ISO8601 (utc n)) 0.

(* ================================================================== *)
(** ** Files, standard output and the commands of [main] *)

(** What a file holds: the document that [json.dump] wrote and [json.load]
    returns, the rows that [csv.writer] wrote, or a text that [json.load]
    cannot parse; the text of rows is of the last kind for [json.load]. *)
Inductive file : Type :=
| JsonFile (v : pyval)
| CsvFile (rows : list (list string))
| Garbage.

(** One argument of a call of [print]. *)
Inductive printed : Type :=
| PrStr (s : string)
| PrInt (n : Z)
| PrNone
| PrQuotient (q : Q).

(** The machine a command line runs on: the world of the engine, the files
    by path, and the calls of [print] so far, each with its arguments. *)
Record Machine : Type := mkMachine {
  m_world : World;
  m_disk : dict file;
  m_stdout : list (list printed)
}.

Definition Run (A : Type) : Type := Machine -> outcome A * Machine.

Definition run_ret {A} (a : A) : Run A := fun m => (Done a, m).

Definition run_bind {A B} (c : Run A) (k : A -> Run B) : Run B :=
  fun m =>
    match c m with
    | (Done a, m') => k a m'
    | (SysExit msg, m') => (SysExit msg, m')
    | (KeyError key, m') => (KeyError key, m')
    end.

Declare Scope run_scope.
Delimit Scope run_scope with run.
Notation "x <- c ;; k" := (run_bind c (fun x => k))
  (at level 61, c at next level, right associativity) : run_scope.
Notation "c ;; k" := (run_bind c (fun _ => k))
  (at level 61, right associativity) : run_scope.

(** A command of the engine, run on the machine. *)
Definition lift {A} (c : Cmd A) : Run A :=
  fun m =>
    let (r, w') := c (m_world m) in
    (r, mkMachine w' (m_disk m) (m_stdout m)).

(** A step that exits or returns without touching the machine. *)
Definition lift_outcome {A} (r : outcome A) : Run A := fun m => (r, m).

(** [print(arg, ...)] *)
Definition print (args : list printed) : Run unit :=
  fun m => (Done tt, mkMachine (m_world m) (m_disk m) (m_stdout m ++ [args])).

(** Writing a whole file through [open(path, mode="w")]. *)
Definition write_file (path : string) (f : file) : Run unit :=
  fun m => (Done tt, mkMachine (m_world m) (dict_set path f (m_disk m)) (m_stdout m)).

(** The store object, read. *)
Definition get_store : Run Store := fun m => (Done (w_store (m_world m)), m).

(** [init_store(path)]; its two calls of [current_time_in_ISO8601()] read
    the clock of the world, as [now_iso] does.  The store object of the
    world, which [main] loads for the other commands, is not involved. *)
Definition init_store (path : string) : Run Store :=
  (created <- lift now_iso ;;
   updated <- lift now_iso ;;
   let store := mkStore (mkMetadata 1 created updated 0) [] in
   write_file path (JsonFile (pyval_of_store store)) ;;
   print [PrStr "Created new password store at"; PrStr path] ;;
   run_ret store)%run.

(** [load_store(path)] *)
Definition load_store (path : string) : Run pyval :=
  fun m =>
    match dict_get path (m_disk m) with
    | None => (SysExit "Store file not found. Run 'init' first.", m)
    | Some (JsonFile v) => (Done v, m)
    | Some _ => (SysExit "Store file is corrupted. Restore or re-init.", m)
    end.

(** [save_store(path, store)] *)
Definition save_store (path : string) : Run unit :=
  (t <- lift now_iso ;;
   lift (metadata_setfield (with_updated_at t)) ;;
   store <- get_store ;;
   write_file path (JsonFile (pyval_of_store store)))%run.

(** The loop of [export_csv] over [entries.items()]: the rows written so
    far and their count. *)
Fixpoint export_loop (items : dict Entry) (rows : list (list string))
  (count : Z) : list (list string) * Z :=
  match items with
  | [] => (rows, count)
  | (site, rec) :: items' =>
      export_loop items'
        (rows ++ [[site; username rec; password rec; last_updated rec]])
        (count + 1)%Z
  end.

(** [export_csv(store, out_path)] *)
Definition export_csv (out_path : string) : Run Z :=
  (store <- get_store ;;
   let header := ["site"; "username"; "password"; "last_updated"] in
   let (rows, count) := export_loop (entries store) [header] 0 in
   write_file out_path (CsvFile rows) ;;
   run_ret count)%run.

(** [s.ljust(width)] *)
Definition ljust (width : nat) (s : string) : string :=
  (s ++ string_of_list_ascii
          (List.repeat " "%char (width - String.length s)))%string.

(** [str(n)] for an integer. *)
Definition str_of_int (n : Z) : string := NilZero.string_of_int (Z.to_int n).

(** A sequence of steps, one per item of a list. *)
Fixpoint for_each {A} (l : list A) (body : A -> Run unit) : Run unit :=
  match l with
  | [] => run_ret tt
  | x :: l' => (body x ;; for_each l' body)%run
  end.

(** The parsed command line of every command but [init]: the sub-command
    with its arguments, as [parse_args] returns them. *)
Inductive command : Type :=
| CmdAdd (site username password : string)
| CmdGet (site : string)
| CmdUpdate (site : string) (username password : option string)
| CmdDelete (site : string)
| CmdList (sort : string)
| CmdSearch (keyword : string)
| CmdExport (out : string)
| CmdStats.

(** The first two steps of [main] for these commands: the document is
    loaded from [file] and validated. *)
Definition main_load (file : string) : Run pyval :=
  (store <- load_store file ;;
   lift_outcome (validate_store_schema store) ;;
   run_ret store)%run.

(** The rest of [main]: the command is run on the store object and the
    store is saved after a change.  The last branch of the source, for a
    command that [parse_args] does not return, has no counterpart. *)
Definition main_dispatch (file : string) (c : command) : Run unit :=
  match c with
  | CmdAdd site username password =>
      (lift (add_entry (Some site) username password) ;;
       save_store file ;;
       print [PrStr ("Added: " ++ normalize_site site ++ " (" ++ username ++ ")")])%run
  | CmdGet site =>
      (entry <- lift (get_entry (Some site)) ;;
       match entry with
       | None => print [PrStr ("No entry found for " ++ normalize_site site)]
       | Some entry =>
           print [PrStr "site:"; PrStr (normalize_site site)] ;;
           print [PrStr "username:"; PrStr (username entry)] ;;
           print [PrStr "password:"; PrStr (password entry)] ;;
           print [PrStr "last_updated:"; PrStr (last_updated entry)]
       end)%run
  | CmdUpdate site username password =>
      (lift (update_entry (Some site) username password) ;;
       save_store file ;;
       print [PrStr ("Updated: " ++ normalize_site site)])%run
  | CmdDelete site =>
      (lift (delete_entry (Some site)) ;;
       save_store file ;;
       print [PrStr ("Deleted: " ++ normalize_site site)])%run
  | CmdList sort =>
      (store <- get_store ;;
       let rows := list_entries store sort in
       match rows with
       | [] => print [PrStr "(empty)"]
       | _ =>
           print [PrStr (ljust 12 "SITE"); PrStr (ljust 16 "USERNAME");
                  PrStr "LAST_UPDATED"] ;;
           for_each rows (fun row =>
             print [PrStr (ljust 12 (fst (fst row)));
                    PrStr (ljust 16 (snd (fst row))); PrStr (snd row)])
       end)%run
  | CmdSearch keyword =>
      (store <- get_store ;;
       let hits := search_entries store (Some keyword) in
       match hits with
       | [] => print [PrStr "(no results)"]
       | _ => for_each hits (fun site => print [PrStr site])
       end)%run
  | CmdExport out =>
      (written <- export_csv out ;;
       print [PrStr ("Exported " ++ str_of_int written ++ " entries to " ++ out)])%run
  | CmdStats =>
      (store <- get_store ;;
       let info := stats store in
       print [PrStr "entries:"; PrInt (st_count info)] ;;
       print [PrStr "oldest: ";
              match st_oldest info with Some t => PrStr t | None => PrNone end] ;;
       print [PrStr "newest: ";
              match st_newest info with Some t => PrStr t | None => PrNone end] ;;
       print [PrStr "avg password length:";
              PrQuotient (st_avg_password_length info)])%run
  end.

(** The branch of [main] for the command [init]. *)
Definition main_init (file : string) : Run unit :=
  (init_store file ;; run_ret tt)%run.

(* ================================================================== *)
(** ** Invariants of the store *)

(** Every key of [entries] is what [normalize_site] returns for it. *)
Definition keys_normalized (s : Store) : Prop :=
  Forall (fun k => normalize_site k = k) (dict_keys (entries s)).

(** The clock never runs backwards: its readings are in the order of
    strings. *)
Definition clock_monotone (w : World) : Prop :=
  forall m n, (m <= n)%nat -> String.leb (w_clock w m) (w_clock w n) = true.

(** No record is stamped later than the document, and the document is not
    stamped later than the next reading of the clock. *)
Definition stamps_ok (w : World) : Prop :=
  (forall k e, In (k, e) (entries (w_store w)) ->
     String.leb (last_updated e) (updated_at (metadata (w_store w))) = true)
  /\ String.leb (updated_at (metadata (w_store w))) (w_clock w (w_reads w)) = true.

(** The record that [update_entry] leaves: the fields that are given
    replace those of [e], and [t] is the new [last_updated]. *)
Definition updated_entry (u p : option string) (t : string) (e : Entry)
  : Entry :=
  mkEntry (match u with Some u' => u' | None => username e end)
          (match p with Some p' => p' | None => password e end) t.

(** Two lookups give records with the same password and the same
    [last_updated], or both give nothing. *)
Definition same_but_username (a b : option Entry) : Prop :=
  match a, b with
  | Some e, Some e' =>
      password e = password e' /\ last_updated e = last_updated e'
  | None, None => True
  | _, _ => False
  end.

(** The key under which a site is stored is [k]. *)
Definition addresses (site : option string) (k : string) : Prop :=
  exists s, site = Some s /\ normalize_site s = k.

(** A field of [update_entry] that is given is not the empty string. *)
Definition field_given_ok (v : option string) : Prop :=
  match v with Some EmptyString => False | _ => True end.

(** The records of a world are stamped no later than [t]. *)
Definition stamped_by (t : string) (w : World) : Prop :=
  forall k e, In (k, e) (entries (w_store w)) ->
    String.leb (last_updated e) t = true.

(* ================================================================== *)
(** ** Vocabulary of the listing and of the commands *)

(** The rows of [list_entries] before they are sorted. *)
Definition rows_of (s : Store) : list (string * string * string) :=
  List.map (fun item => (fst item, username (snd item), last_updated (snd item)))
           (entries s).

(** The component by which [list_entries] sorts for a given [sort_key]. *)
Definition row_key (sort_key : string) (row : string * string * string)
  : string :=
  if String.eqb sort_key "last_updated" then snd row else fst (fst row).

(** The last item of a list, if any. *)
Definition last_error {A} (l : list A) : option A := hd_error (List.rev l).

(** The row that [export_csv] writes for an item of [entries.items()]. *)
Definition export_row (item : string * Entry) : list string :=
  [fst item; username (snd item); password (snd item); last_updated (snd item)].

(** The commands of [main] that call no mutation of the engine and write no
    file. *)
Definition read_only (c : command) : bool :=
  match c with
  | CmdGet _ | CmdList _ | CmdSearch _ | CmdStats => true
  | _ => false
  end.

(** The commands of [main] that change the store. *)
Definition mutating (c : command) : bool :=
  match c with
  | CmdAdd _ _ _ | CmdUpdate _ _ _ | CmdDelete _ => true
  | _ => false
  end.

(** The world after the first statement of [save_store]: [updated_at] is
    the clock reading. *)
Definition touched (w : World) : World :=
  mkWorld (mkStore (with_updated_at (w_clock w (w_reads w)) (metadata (w_store w)))
                   (entries (w_store w)))
          (w_clock w) (S (w_reads w)).

(** The call of the engine that a mutating command makes. *)
Definition op_of (c : command) : option op :=
  match c with
  | CmdAdd site u p => Some (OpAdd (Some site) u p)
  | CmdUpdate site u p => Some (OpUpdate (Some site) u p)
  | CmdDelete site => Some (OpDelete (Some site))
  | _ => None
  end.

(** The header row of the export. *)
Definition export_header : list string :=
  ["site"; "username"; "password"; "last_updated"].

(** A run left through [sys.exit]. *)
Definition run_exited {A} (r : outcome A * Machine) : Prop :=
  exists msg, fst r = SysExit msg.

(** What a mutating command prints after it has saved the store. *)
Definition confirmation (c : command) : list printed :=
  match c with
  | CmdAdd site u _ =>
      [PrStr ("Added: " ++ normalize_site site ++ " (" ++ u ++ ")")]
  | CmdUpdate site _ _ => [PrStr ("Updated: " ++ normalize_site site)]
  | CmdDelete site => [PrStr ("Deleted: " ++ normalize_site site)]
  | _ => []
  end.

(** A machine with the store of [one_world] in memory and its document in
    the file ["store.json"]. *)
Definition one_machine : Machine :=
  mkMachine one_world [("store.json", JsonFile (pyval_of_store one_store))] [].

(* ================================================================== *)
(** * Properties *)

(** ** Dictionaries *)

Section DictFacts.
Context {V : Type}.
Implicit Types (d : dict V) (k : string) (v : V).

Lemma dict_in_get k d :
  dict_in k d = true <-> exists v, dict_get k d = Some v.
Proof.
  unfold dict_in. destruct (dict_get k d) as [v|].
  - split; [intros _; now exists v | reflexivity].
  - split; [discriminate | intros [v Hv]; discriminate].
Qed.

Lemma dict_in_keys k d : dict_in k d = true <-> In k (dict_keys d).
Proof.
  unfold dict_in. induction d as [|[k' v'] d IH]; simpl.
  - split; [discriminate | tauto].
  - destruct (String.eqb_spec k k') as [->|Hne].
    + split; auto.
    + rewrite IH. split; [auto | intros [E|H]; [congruence | exact H]].
Qed.

Lemma dict_get_set_same k v d : dict_get k (dict_set k v d) = Some v.
Proof.
  induction d as [|[k' v'] d IH]; simpl.
  - now rewrite String.eqb_refl.
  - destruct (String.eqb_spec k k') as [->|Hne]; simpl.
    + now rewrite String.eqb_refl.
    + destruct (String.eqb_spec k k'); [contradiction | exact IH].
Qed.

Lemma dict_get_set_other k k0 v d :
  k0 <> k -> dict_get k0 (dict_set k v d) = dict_get k0 d.
Proof.
  intros Hne. induction d as [|[k' v'] d IH]; simpl.
  - destruct (String.eqb_spec k0 k); [contradiction | reflexivity].
  - destruct (String.eqb_spec k k') as [->|Hkk']; simpl.
    + destruct (String.eqb_spec k0 k'); [contradiction | reflexivity].
    + destruct (String.eqb_spec k0 k'); [reflexivity | exact IH].
Qed.

Lemma dict_keys_set_in k v d :
  dict_in k d = true -> dict_keys (dict_set k v d) = dict_keys d.
Proof.
  unfold dict_in. induction d as [|[k' v'] d IH]; simpl.
  - discriminate.
  - destruct (String.eqb_spec k k') as [->|Hne]; simpl.
    + reflexivity.
    + intros H. now rewrite IH.
Qed.

Lemma dict_keys_set_new k v d :
  dict_in k d = false -> dict_keys (dict_set k v d) = dict_keys d ++ [k].
Proof.
  unfold dict_in. induction d as [|[k' v'] d IH]; simpl.
  - reflexivity.
  - destruct (String.eqb_spec k k') as [->|Hne]; simpl.
    + discriminate.
    + intros H. now rewrite IH.
Qed.

Lemma dict_len_set_in k v d :
  dict_in k d = true -> dict_len (dict_set k v d) = dict_len d.
Proof.
  intros H. unfold dict_len.
  rewrite <- (length_map fst (dict_set k v d)), <- (length_map fst d).
  fold (dict_keys (dict_set k v d)). fold (dict_keys d).
  now rewrite dict_keys_set_in.
Qed.

Lemma dict_len_set_new k v d :
  dict_in k d = false -> dict_len (dict_set k v d) = (dict_len d + 1)%Z.
Proof.
  intros H. unfold dict_len.
  rewrite <- (length_map fst (dict_set k v d)), <- (length_map fst d).
  fold (dict_keys (dict_set k v d)). fold (dict_keys d).
  rewrite dict_keys_set_new by exact H. rewrite length_app. simpl. lia.
Qed.

Lemma dict_len_del k d :
  dict_in k d = true -> dict_len (dict_del k d) = (dict_len d - 1)%Z.
Proof.
  unfold dict_in, dict_len. induction d as [|[k' v'] d IH].
  - discriminate.
  - simpl dict_get. simpl dict_del.
    destruct (String.eqb_spec k k') as [->|Hne]; intros H.
    + cbn [Datatypes.length]. lia.
    + specialize (IH H). cbn [Datatypes.length]. lia.
Qed.

Lemma dict_get_del_same k d : dict_wf d -> dict_get k (dict_del k d) = None.
Proof.
  unfold dict_wf. induction d as [|[k' v'] d IH]; simpl; intros Hwf.
  - reflexivity.
  - inversion Hwf as [|? ? Hnotin Hwf']; subst.
    destruct (String.eqb_spec k k') as [->|Hne]; simpl.
    + destruct (dict_get k' d) eqn:E; [|reflexivity].
      exfalso. apply Hnotin. apply dict_in_keys. unfold dict_in. now rewrite E.
    + destruct (String.eqb_spec k k'); [contradiction | now apply IH].
Qed.

Lemma dict_wf_set k v d : dict_wf d -> dict_wf (dict_set k v d).
Proof.
  unfold dict_wf. intros Hwf. destruct (dict_in k d) eqn:E.
  - now rewrite dict_keys_set_in.
  - rewrite dict_keys_set_new by exact E.
    apply NoDup_app; [exact Hwf | repeat constructor; simpl; tauto |].
    intros x Hx [<-|[]]. apply dict_in_keys in Hx. congruence.
Qed.

Lemma dict_keys_del_incl k d x :
  In x (dict_keys (dict_del k d)) -> In x (dict_keys d).
Proof.
  induction d as [|[k' v'] d IH]; simpl; [tauto|].
  destruct (String.eqb_spec k k'); simpl; tauto.
Qed.

Lemma dict_wf_del k d : dict_wf d -> dict_wf (dict_del k d).
Proof.
  unfold dict_wf. induction d as [|[k' v'] d IH]; simpl; intros Hwf.
  - constructor.
  - inversion Hwf as [|? ? Hnotin Hwf']; subst.
    destruct (String.eqb_spec k k'); simpl; [exact Hwf'|].
    constructor; [|now apply IH].
    intros Hin. apply Hnotin. eapply dict_keys_del_incl; eauto.
Qed.

Lemma dict_get_In k v d : dict_get k d = Some v -> In (k, v) d.
Proof.
  induction d as [|[k' v'] d IH]; simpl; [discriminate|].
  destruct (String.eqb_spec k k') as [->|Hne].
  - intros [= ->]. now left.
  - intros H. right. now apply IH.
Qed.

Lemma dict_In_get k v d : dict_wf d -> In (k, v) d -> dict_get k d = Some v.
Proof.
  unfold dict_wf. induction d as [|[k' v'] d IH]; simpl; intros Hwf Hin.
  - contradiction.
  - inversion Hwf as [|? ? Hnotin Hwf']; subst.
    destruct Hin as [[= -> ->]|Hin].
    + now rewrite String.eqb_refl.
    + destruct (String.eqb_spec k k') as [->|Hne]; [|now apply IH].
      exfalso. apply Hnotin. change k' with (fst (k', v)). now apply in_map.
Qed.

End DictFacts.

(* ================================================================== *)
(** ** Normalisation *)

Lemma isspace_lower_char c : Str.isspace (Str.lower_char c) = Str.isspace c.
Proof. destruct c as [[] [] [] [] [] [] [] []]; reflexivity. Qed.

Lemma lower_char_idem c : Str.lower_char (Str.lower_char c) = Str.lower_char c.
Proof. destruct c as [[] [] [] [] [] [] [] []]; reflexivity. Qed.

Lemma lower_idem s : Str.lower (Str.lower s) = Str.lower s.
Proof.
  induction s as [|c s IH]; simpl; [reflexivity|].
  now rewrite lower_char_idem, IH.
Qed.

Lemma lstrip_lower s : Str.lstrip (Str.lower s) = Str.lower (Str.lstrip s).
Proof.
  induction s as [|c s IH]; simpl; [reflexivity|].
  rewrite isspace_lower_char. destruct (Str.isspace c); [exact IH | reflexivity].
Qed.

Lemma rstrip_lower s : Str.rstrip (Str.lower s) = Str.lower (Str.rstrip s).
Proof.
  induction s as [|c s IH]; simpl; [reflexivity|].
  rewrite IH, isspace_lower_char.
  destruct (Str.rstrip s); simpl; [|reflexivity].
  destruct (Str.isspace c); reflexivity.
Qed.

Lemma strip_lower s : Str.strip (Str.lower s) = Str.lower (Str.strip s).
Proof. unfold Str.strip. now rewrite lstrip_lower, rstrip_lower. Qed.

Lemma lstrip_no_lead s : no_lead (Str.lstrip s).
Proof.
  induction s as [|c s IH]; simpl; [exact I|].
  destruct (Str.isspace c) eqn:E; [exact IH | exact E].
Qed.

Lemma lstrip_fixed s : no_lead s -> Str.lstrip s = s.
Proof. destruct s as [|c s]; simpl; [reflexivity | now intros ->]. Qed.

Lemma rstrip_no_lead s : no_lead s -> no_lead (Str.rstrip s).
Proof.
  destruct s as [|c s]; simpl; [exact id|]. intros Hc.
  destruct (Str.rstrip s); [now rewrite Hc | exact Hc].
Qed.

Lemma rstrip_cons c s :
  Str.rstrip (String c s)
  = match Str.rstrip s with
    | EmptyString =>
        if Str.isspace c then EmptyString else String c EmptyString
    | r => String c r
    end.
Proof. reflexivity. Qed.

Lemma rstrip_idem s : Str.rstrip (Str.rstrip s) = Str.rstrip s.
Proof.
  induction s as [|c s IH]; [reflexivity|].
  rewrite rstrip_cons. destruct (Str.rstrip s) as [|c' r] eqn:E.
  - destruct (Str.isspace c) eqn:Ec; simpl; [reflexivity | now rewrite Ec].
  - rewrite rstrip_cons, IH. reflexivity.
Qed.

Lemma strip_idem s : Str.strip (Str.strip s) = Str.strip s.
Proof.
  unfold Str.strip.
  rewrite (lstrip_fixed (Str.rstrip (Str.lstrip s)))
    by apply rstrip_no_lead, lstrip_no_lead.
  apply rstrip_idem.
Qed.

(** Normalising a key twice gives what normalising it once gives. *)
Lemma normalize_site_idem s :
  normalize_site (normalize_site s) = normalize_site s.
Proof.
  unfold normalize_site. now rewrite strip_lower, strip_idem, lower_idem.
Qed.

(* ================================================================== *)
(** ** The operations in closed form *)

Ltac run_cmd :=
  unfold bind, ret, sys_exit, get_entries, entries_setitem, entry_setfield,
    entries_delitem, metadata_setfield, now_iso, set_store; simpl.

Lemma add_entry_run site u p w :
  add_entry (Some site) u p w =
    let k := normalize_site site in
    if negb (Str.truthy u) || negb (Str.truthy p)
    then (SysExit "add: username and password cannot be empty.", w)
    else if dict_in k (entries (w_store w))
    then (SysExit ("add: entry for '" ++ k
                   ++ "' already exists. Use 'update' instead."), w)
    else (Done tt, added k u p w).
Proof.
  unfold add_entry. cbv zeta.
  destruct (negb (Str.truthy u) || negb (Str.truthy p)); [reflexivity|].
  run_cmd. destruct (dict_in (normalize_site site) (entries (w_store w)));
    reflexivity.
Qed.

Lemma delete_entry_run site w :
  delete_entry (Some site) w =
    let k := normalize_site site in
    if dict_in k (entries (w_store w))
    then (Done tt, deleted k w)
    else (SysExit ("delete: no entry found for '" ++ k ++ "'."), w).
Proof.
  unfold delete_entry. cbv zeta. run_cmd.
  destruct (dict_in (normalize_site site) (entries (w_store w))) eqn:E;
    simpl; [|reflexivity].
  rewrite E. reflexivity.
Qed.

Lemma update_entry_run site username password w :
  update_entry (Some site) username password w =
    let k := normalize_site site in
    match username, password with
    | None, None =>
        (SysExit "update: nothing to update (provide --username and/or --password).", w)
    | _, _ =>
        if negb (dict_in k (entries (w_store w)))
        then (SysExit ("update: no entry found for '" ++ k ++ "'."), w)
        else
          match username with
          | Some EmptyString => (SysExit "update: username cannot be empty.", w)
          | _ =>
              let w1 :=
                match username with
                | Some u => rewritten k (with_username u) w
                | None => w
                end in
              match password with
              | Some EmptyString =>
                  (SysExit "update: password cannot be empty.", w1)
              | Some p => (Done tt, stamped k (rewritten k (with_password p) w1))
              | None => (Done tt, stamped k w1)
              end
          end
    end.
Proof.
  unfold update_entry. cbv zeta.
  set (k := normalize_site site).
  assert (Hset : forall f w0, dict_in k (entries (w_store w0)) = true ->
            entry_setfield k f w0 = (Done tt, rewritten k f w0)).
  { intros f w0. unfold entry_setfield, rewritten, dict_in.
    destruct (dict_get k (entries (w_store w0))); [reflexivity|discriminate]. }
  assert (Hin : forall f w0, dict_in k (entries (w_store w0)) = true ->
            dict_in k (entries (w_store (rewritten k f w0))) = true).
  { intros f w0 H. unfold rewritten. pose proof H as H'. unfold dict_in in H'.
    destruct (dict_get k (entries (w_store w0))) eqn:E; [|discriminate].
    simpl. unfold dict_in. now rewrite dict_get_set_same. }
  assert (Hstamp : forall w0, dict_in k (entries (w_store w0)) = true ->
            (t <- now_iso ;; entry_setfield k (with_last_updated t) ;;
             t' <- now_iso ;; metadata_setfield (with_updated_at t')) w0
            = (Done tt, stamped k w0)).
  { intros w0 H. unfold bind at 1. unfold now_iso at 1. cbv beta iota.
    unfold bind at 1. rewrite Hset by exact H.
    unfold stamped, rewritten. cbv zeta. simpl.
    unfold dict_in in H.
    destruct (dict_get k (entries (w_store w0))); [reflexivity|discriminate]. }
  destruct username as [u|], password as [p|]; try reflexivity;
    unfold bind at 1; unfold get_entries at 1; cbv beta iota;
    destruct (dict_in k (entries (w_store w))) eqn:E; cbn [negb];
    try reflexivity.
  - destruct u as [|c u]; [reflexivity|]. cbn [negb Str.truthy].
    unfold bind at 1. rewrite Hset by exact E.
    destruct p as [|c' p]; [reflexivity|]. cbn [negb Str.truthy].
    unfold bind at 1. rewrite Hset by (apply Hin; exact E).
    apply Hstamp. apply Hin. apply Hin. exact E.
  - destruct u as [|c u]; [reflexivity|]. cbn [negb Str.truthy].
    unfold bind at 1. rewrite Hset by exact E.
    unfold bind at 1. unfold ret at 1.
    apply Hstamp. apply Hin. exact E.
  - unfold bind at 1. unfold ret at 1.
    destruct p as [|c' p]; [reflexivity|]. cbn [negb Str.truthy].
    unfold bind at 1. rewrite Hset by exact E.
    apply Hstamp. apply Hin. exact E.
Qed.

Lemma rewritten_metadata k f w :
  metadata (w_store (rewritten k f w)) = metadata (w_store w).
Proof.
  unfold rewritten. cbv zeta.
  destruct (dict_get k (entries (w_store w))); reflexivity.
Qed.

Lemma rewritten_clock k f w : w_clock (rewritten k f w) = w_clock w.
Proof.
  unfold rewritten. cbv zeta.
  destruct (dict_get k (entries (w_store w))); reflexivity.
Qed.

Lemma rewritten_reads k f w : w_reads (rewritten k f w) = w_reads w.
Proof.
  unfold rewritten. cbv zeta.
  destruct (dict_get k (entries (w_store w))); reflexivity.
Qed.

Lemma rewritten_get k f w e :
  dict_get k (entries (w_store w)) = Some e ->
  dict_get k (entries (w_store (rewritten k f w))) = Some (f e).
Proof.
  intros H. unfold rewritten. cbv zeta. rewrite H. simpl.
  apply dict_get_set_same.
Qed.

Lemma rewritten_get_other k k0 f w :
  k0 <> k ->
  dict_get k0 (entries (w_store (rewritten k f w)))
  = dict_get k0 (entries (w_store w)).
Proof.
  intros Hne. unfold rewritten. cbv zeta.
  destruct (dict_get k (entries (w_store w))); [|reflexivity].
  simpl. now apply dict_get_set_other.
Qed.

Lemma rewritten_keys k f w :
  dict_keys (entries (w_store (rewritten k f w)))
  = dict_keys (entries (w_store w)).
Proof.
  unfold rewritten. cbv zeta.
  destruct (dict_get k (entries (w_store w))) eqn:E; [|reflexivity].
  simpl. apply dict_keys_set_in. unfold dict_in. now rewrite E.
Qed.

Lemma dict_len_keys {V} (d : dict V) :
  dict_len d = Z.of_nat (List.length (dict_keys d)).
Proof. unfold dict_len, dict_keys. now rewrite length_map. Qed.

Lemma rewritten_len k f w :
  dict_len (entries (w_store (rewritten k f w)))
  = dict_len (entries (w_store w)).
Proof. now rewrite !dict_len_keys, rewritten_keys. Qed.

Lemma rewritten_count_ok k f w :
  count_ok (w_store w) -> count_ok (w_store (rewritten k f w)).
Proof.
  unfold count_ok. now rewrite rewritten_metadata, rewritten_len.
Qed.

Lemma stamped_count_ok k w :
  count_ok (w_store w) -> count_ok (w_store (stamped k w)).
Proof.
  unfold count_ok, stamped. cbv zeta. simpl.
  now rewrite rewritten_metadata, rewritten_len.
Qed.

Lemma stamped_count k w :
  count (metadata (w_store (stamped k w))) = count (metadata (w_store w)).
Proof. unfold stamped. cbv zeta. simpl. now rewrite rewritten_metadata. Qed.

(** Whatever its outcome, [update_entry] leaves [metadata.count] as it
    was. *)
Lemma update_entry_count site u p w :
  count (metadata (w_store (snd (update_entry site u p w))))
  = count (metadata (w_store w)).
Proof.
  destruct site as [site|]; [|reflexivity].
  rewrite update_entry_run. cbv zeta.
  destruct u as [[|c u]|], p as [[|c' p]|]; try reflexivity;
    destruct (dict_in (normalize_site site) (entries (w_store w)));
    cbn [negb snd]; try reflexivity;
    rewrite ?stamped_count, ?rewritten_metadata; reflexivity.
Qed.

(** Whatever its outcome, a call of the engine keeps
    [metadata.count == len(entries)]. *)
Lemma exec_op_count_ok o w :
  count_ok (w_store w) -> count_ok (w_store (snd (exec_op o w))).
Proof.
  intros H. destruct o as [site u p|site u p|site]; simpl exec_op.
  - destruct site as [site|]; [|exact H].
    rewrite add_entry_run. cbv zeta.
    destruct (negb (Str.truthy u) || negb (Str.truthy p)); [exact H|].
    destruct (dict_in (normalize_site site) (entries (w_store w))); [exact H|].
    reflexivity.
  - destruct site as [site|]; [|exact H].
    rewrite update_entry_run. cbv zeta.
    destruct u as [[|c u]|], p as [[|c' p]|]; try exact H;
      destruct (dict_in (normalize_site site) (entries (w_store w)));
      cbn [negb snd]; try exact H;
      repeat first [apply stamped_count_ok | apply rewritten_count_ok];
      exact H.
  - destruct site as [site|]; [|exact H].
    rewrite delete_entry_run. cbv zeta.
    destruct (dict_in (normalize_site site) (entries (w_store w))); [|exact H].
    reflexivity.
Qed.

(* ================================================================== *)
(** ** The count invariant *)

(** C1. Starting from a document with [metadata.count == len(entries)], the
    equation holds after every call of any sequence of add, update and
    delete calls; and a call of update leaves [metadata.count] as it was. *)
Theorem count_invariant (ops : list op) (w : World) :
  count_ok (w_store w) ->
  Forall (fun w' => count_ok (w_store w')) (trace ops w)
  /\ (forall site u p w0,
        count (metadata (w_store (snd (update_entry site u p w0))))
        = count (metadata (w_store w0))).
Proof.
  intros H. split; [|intros; apply update_entry_count].
  revert w H. induction ops as [|o ops IH]; intros w H; simpl.
  - constructor.
  - pose proof (exec_op_count_ok o w H) as Hstep.
    destruct (exec_op o w) as [[[]|msg|key] w']; simpl in Hstep.
    + constructor; [exact Hstep | now apply IH].
    + now constructor.
    + now constructor.
Qed.

Lemma count_invariant_witness :
  count_ok (w_store empty_world)
  /\ Forall (fun w' => count_ok (w_store w'))
       (trace [OpAdd (Some "Example.com") "alice" "secret";
               OpAdd (Some "gitlab.com") "bob" "hunter2";
               OpUpdate (Some " example.COM") (Some "carol") None;
               OpDelete (Some "GitLab.com")] empty_world).
Proof.
  split; [reflexivity|].
  apply (count_invariant _ empty_world). reflexivity.
Defined.

(* ================================================================== *)
(** ** Failing calls *)

Lemma truthy_nonempty s : s <> "" -> Str.truthy s = true.
Proof. destruct s; [congruence | reflexivity]. Qed.

(** C2, on the code. In a store that holds the key of [site], the call
    [update_entry(store, site, username=u, password="")] with a non-empty
    [u] exits with the message about the password, and by then the user
    name of the record has been overwritten with [u]: the call is applied
    in part. *)
Theorem update_entry_empty_password_partial (w : World) (site u : string)
  (e : Entry) :
  dict_get (normalize_site site) (entries (w_store w)) = Some e ->
  u <> "" ->
  let r := update_entry (Some site) (Some u) (Some "") w in
  fst r = SysExit "update: password cannot be empty."
  /\ dict_get (normalize_site site) (entries (w_store (snd r)))
     = Some (mkEntry u (password e) (last_updated e)).
Proof.
  intros He Hu r. subst r. rewrite update_entry_run. cbv zeta.
  unfold dict_in. rewrite He. cbn [negb].
  destruct u as [|c u]; [congruence|]. cbn [fst snd].
  split; [reflexivity|].
  now rewrite (rewritten_get _ _ _ _ He).
Qed.

Lemma update_entry_empty_password_partial_witness :
  dict_get "github.com" (entries (w_store one_world))
    = Some (mkEntry "alice" "secret" "2025-09-04T13:30:00Z")
  /\ fst (update_entry (Some "GitHub.com") (Some "bob") (Some "") one_world)
     = SysExit "update: password cannot be empty."
  /\ dict_get "github.com"
       (entries (w_store
          (snd (update_entry (Some "GitHub.com") (Some "bob") (Some "") one_world))))
     = Some (mkEntry "bob" "secret" "2025-09-04T13:30:00Z").
Proof.
  split; [reflexivity|].
  apply (update_entry_empty_password_partial one_world "GitHub.com" "bob"
           (mkEntry "alice" "secret" "2025-09-04T13:30:00Z")).
  - reflexivity.
  - discriminate.
Defined.

(** C3, as stated, fails: [get_entry] with the empty string as site does not
    exit; it looks up the key [""] and returns [None] on the empty store. *)
Lemma get_entry_empty_site_returns :
  get_entry (Some "") empty_world = (Done None, empty_world)
  /\ ~ (forall w site,
          exited (get_entry site w) <-> (site = None \/ site = Some "")).
Proof.
  split; [reflexivity|].
  intros H. destruct (proj2 (H empty_world (Some "")) (or_intror eq_refl))
    as [msg Hmsg].
  discriminate Hmsg.
Qed.

(** C3, amended. [get_entry] exits if and only if no site is given; for
    every site that is given, the empty string included, it returns what
    the entries hold under the normalized key, [None] when the key is not
    there, and leaves the world as it is. *)
Theorem get_entry_exits_iff_absent (w : World) (site : option string) :
  (exited (get_entry site w) <-> site = None)
  /\ get_entry site w
     = match site with
       | None => (SysExit "get: site is required.", w)
       | Some s =>
           (Done (dict_get (normalize_site s) (entries (w_store w))), w)
       end.
Proof.
  split; [|destruct site; reflexivity].
  destruct site as [s|]; split; intros H.
  - destruct H as [msg H]. discriminate H.
  - discriminate H.
  - reflexivity.
  - now exists "get: site is required.".
Qed.

(** C5, as stated, fails: with an empty user name, [add_entry] on a key that
    exists exits with the message about empty credentials, not with the one
    about the duplicate. *)
Lemma add_entry_duplicate_empty_username :
  dict_in (normalize_site "github.com") (entries (w_store one_world)) = true
  /\ add_entry (Some "github.com") "" "p2" one_world
     = (SysExit "add: username and password cannot be empty.", one_world).
Proof. split; reflexivity. Qed.

(** C5, amended. In a store that holds the normalized key of [site],
    [add_entry] exits and leaves the world, entries and metadata, as it
    was; when the user name and the password are non-empty the exit is the
    one reporting the duplicate. *)
Theorem add_entry_duplicate_unchanged (w : World) (site u2 p2 : string) :
  dict_in (normalize_site site) (entries (w_store w)) = true ->
  (exists msg, add_entry (Some site) u2 p2 w = (SysExit msg, w))
  /\ (u2 <> "" -> p2 <> "" ->
      add_entry (Some site) u2 p2 w
      = (SysExit ("add: entry for '" ++ normalize_site site
                  ++ "' already exists. Use 'update' instead."), w)).
Proof.
  intros Hin. rewrite add_entry_run. cbv zeta. rewrite Hin. split.
  - destruct (negb (Str.truthy u2) || negb (Str.truthy p2)); eauto.
  - intros Hu Hp. now rewrite (truthy_nonempty _ Hu), (truthy_nonempty _ Hp).
Qed.

Lemma add_entry_duplicate_unchanged_witness :
  (exists msg,
      add_entry (Some " GitHub.com ") "u2" "p2" one_world = (SysExit msg, one_world))
  /\ ("u2" <> "" -> "p2" <> "" ->
      add_entry (Some " GitHub.com ") "u2" "p2" one_world
      = (SysExit "add: entry for 'github.com' already exists. Use 'update' instead.",
         one_world)).
Proof.
  apply (add_entry_duplicate_unchanged one_world " GitHub.com " "u2" "p2").
  reflexivity.
Defined.

(* ================================================================== *)
(** ** Adding and reading back *)

(** C6. After a call of [add_entry] that returns, [get_entry] with any site
    that normalizes to the same key returns a record with the user name and
    the password that were added. *)
Theorem add_then_get (w w' : World) (site site' u p : string) :
  add_entry (Some site) u p w = (Done tt, w') ->
  normalize_site site' = normalize_site site ->
  exists e,
    get_entry (Some site') w' = (Done (Some e), w')
    /\ username e = u /\ password e = p.
Proof.
  intros Hadd Hnorm. rewrite add_entry_run in Hadd. cbv zeta in Hadd.
  destruct (negb (Str.truthy u) || negb (Str.truthy p)); [discriminate|].
  destruct (dict_in (normalize_site site) (entries (w_store w)));
    [discriminate|].
  injection Hadd as <-.
  exists (mkEntry u p (w_clock w (w_reads w))). split; [|split; reflexivity].
  unfold get_entry, bind, get_entries, ret. rewrite Hnorm.
  unfold added. cbv zeta. simpl. now rewrite dict_get_set_same.
Qed.

Lemma add_then_get_witness :
  exists e,
    get_entry (Some "  EXAMPLE.COM ")
      (snd (add_entry (Some "Example.com") "alice" "secret" empty_world))
    = (Done (Some e),
       snd (add_entry (Some "Example.com") "alice" "secret" empty_world))
    /\ username e = "alice" /\ password e = "secret".
Proof.
  apply (add_then_get empty_world _ "Example.com" "  EXAMPLE.COM "
           "alice" "secret"); reflexivity.
Defined.

(** Both spellings of the site of the example give the key
    ["example.com"]. *)
Example normalize_site_example :
  normalize_site "  EXAMPLE.COM " = "example.com"
  /\ normalize_site "Example.com" = "example.com".
Proof. split; reflexivity. Qed.

(* ================================================================== *)
(** ** The frame of a partial update *)

(** C7. A call [update_entry(store, site, username=u)] that returns, in a
    store holding the record [e] under the key of [site], leaves under that
    key the record with user name [u], the password of [e] and the clock
    reading as [last_updated]; every other key holds what it held, the keys
    are the same in the same order, [metadata.updated_at] is the next clock
    reading, and [count], [version] and [created_at] are as before. *)
Theorem update_username_frame (w w' : World) (site u : string) (e : Entry) :
  dict_get (normalize_site site) (entries (w_store w)) = Some e ->
  update_entry (Some site) (Some u) None w = (Done tt, w') ->
  let k := normalize_site site in
  dict_get k (entries (w_store w'))
    = Some (mkEntry u (password e) (w_clock w (w_reads w)))
  /\ (forall k0, k0 <> k ->
        dict_get k0 (entries (w_store w')) = dict_get k0 (entries (w_store w)))
  /\ dict_keys (entries (w_store w')) = dict_keys (entries (w_store w))
  /\ count (metadata (w_store w')) = count (metadata (w_store w))
  /\ version (metadata (w_store w')) = version (metadata (w_store w))
  /\ created_at (metadata (w_store w')) = created_at (metadata (w_store w))
  /\ updated_at (metadata (w_store w')) = w_clock w (S (w_reads w)).
Proof.
  intros He Hrun k. rewrite update_entry_run in Hrun. cbv zeta in Hrun.
  fold k in Hrun, He. unfold dict_in in Hrun. rewrite He in Hrun.
  cbn [negb] in Hrun. destruct u as [|c u]; [discriminate|].
  injection Hrun as <-. set (u' := String c u).
  assert (H1 : dict_get k (entries (w_store (rewritten k (with_username u') w)))
               = Some (with_username u' e)) by now apply rewritten_get.
  unfold stamped. cbv zeta. cbn [w_store metadata entries].
  repeat split.
  - rewrite (rewritten_get _ _ _ _ H1).
    unfold rewritten at 1 2. cbv zeta. rewrite He. reflexivity.
  - intros k0 Hk0. now rewrite !rewritten_get_other.
  - now rewrite !rewritten_keys.
  - now rewrite !rewritten_metadata.
  - now rewrite !rewritten_metadata.
  - now rewrite !rewritten_metadata.
  - cbn [updated_at with_updated_at]. now rewrite rewritten_clock, rewritten_reads.
Qed.

Lemma update_username_frame_witness :
  let w' := snd (update_entry (Some "GitHub.com") (Some "bob") None one_world) in
  dict_get "github.com" (entries (w_store w'))
    = Some (mkEntry "bob" "secret" "2025-09-04T14:00:00Z")
  /\ (forall k0, k0 <> "github.com" ->
        dict_get k0 (entries (w_store w')) = dict_get k0 (entries one_store))
  /\ dict_keys (entries (w_store w')) = ["github.com"]
  /\ count (metadata (w_store w')) = 1%Z
  /\ version (metadata (w_store w')) = 1%Z
  /\ created_at (metadata (w_store w')) = "2025-09-04T13:00:00Z"
  /\ updated_at (metadata (w_store w')) = "2025-09-04T14:00:01Z".
Proof.
  apply (update_username_frame one_world _ "GitHub.com" "bob"
           (mkEntry "alice" "secret" "2025-09-04T13:30:00Z")); reflexivity.
Defined.

(* ================================================================== *)
(** ** Sites that are all white space *)

Lemma lstrip_all_space s : Str.all_space s = true -> Str.lstrip s = "".
Proof.
  induction s as [|c s IH]; simpl; [reflexivity|].
  destruct (Str.isspace c); simpl; [exact IH | discriminate].
Qed.

Lemma normalize_site_all_space s :
  Str.all_space s = true -> normalize_site s = "".
Proof.
  intros H. unfold normalize_site, Str.strip.
  now rewrite (lstrip_all_space _ H).
Qed.

(** C10. For a site made of white space only (the empty string included)
    and a non-empty user name and password, [add_entry] on a store without
    the key [""] returns and leaves the new record under the key [""]. *)
Theorem add_entry_blank_site (w : World) (site u p : string) :
  Str.all_space site = true ->
  u <> "" -> p <> "" ->
  dict_in "" (entries (w_store w)) = false ->
  exists w',
    add_entry (Some site) u p w = (Done tt, w')
    /\ dict_get "" (entries (w_store w'))
       = Some (mkEntry u p (w_clock w (w_reads w))).
Proof.
  intros Hsp Hu Hp Hnew. rewrite add_entry_run. cbv zeta.
  rewrite (normalize_site_all_space _ Hsp), Hnew.
  rewrite (truthy_nonempty _ Hu), (truthy_nonempty _ Hp). cbn [negb orb].
  eexists. split; [reflexivity|].
  unfold added. cbv zeta. cbn [w_store entries]. apply dict_get_set_same.
Qed.

Lemma add_entry_blank_site_witness :
  exists w',
    add_entry (Some "   ") "alice" "secret" one_world = (Done tt, w')
    /\ dict_get "" (entries (w_store w'))
       = Some (mkEntry "alice" "secret" "2025-09-04T14:00:00Z").
Proof.
  apply (add_entry_blank_site one_world "   " "alice" "secret");
    [reflexivity | discriminate | discriminate | reflexivity].
Defined.

(* ================================================================== *)
(** ** Strings: order and substrings *)

Lemma string_leb_iff a b :
  String.leb a b = true <-> a = b \/ String_as_OT.lt a b.
Proof.
  unfold String.leb. destruct (String.compare a b) eqn:E.
  - apply String_as_OT.cmp_eq in E. tauto.
  - apply String_as_OT.cmp_lt in E. tauto.
  - split; [discriminate|]. intros [H|H].
    + apply String_as_OT.cmp_eq in H. unfold String_as_OT.cmp in H. congruence.
    + apply String_as_OT.cmp_lt in H. unfold String_as_OT.cmp in H. congruence.
Qed.

Lemma string_leb_refl a : String.leb a a = true.
Proof. apply string_leb_iff. now left. Qed.

Lemma string_leb_trans a b c :
  String.leb a b = true -> String.leb b c = true -> String.leb a c = true.
Proof.
  rewrite !string_leb_iff. intros [->|H1] [->|H2]; auto.
  right. eapply String_as_OT.lt_trans; eauto.
Qed.

Lemma string_ltb_false_leb a b :
  String.ltb a b = false -> String.leb b a = true.
Proof.
  unfold String.ltb, String.leb. rewrite (String.compare_antisym b a).
  destruct (String.compare a b); simpl; congruence.
Qed.

Lemma string_ltb_true_leb a b :
  String.ltb a b = true -> String.leb a b = true.
Proof.
  unfold String.ltb, String.leb. destruct (String.compare a b); congruence.
Qed.

Lemma prefix_iff k s :
  String.prefix k s = true <-> exists post, s = (k ++ post)%string.
Proof.
  revert s. induction k as [|c k IH]; intros s.
  - destruct s; simpl; split; eauto.
  - destruct s as [|c' s]; simpl.
    + split; [discriminate | intros [post H]; discriminate].
    + destruct (Ascii.ascii_dec c c') as [->|Hne].
      * rewrite IH. split; intros [post H]; exists post.
        -- now rewrite H.
        -- now injection H.
      * split; [discriminate|]. intros [post H]. injection H as H _.
        congruence.
Qed.

Lemma contains_iff k s : Str.contains k s = true <-> substring_of k s.
Proof.
  unfold substring_of. induction s as [|c s IH].
  - cbn [Str.contains]. rewrite orb_false_r, prefix_iff. split.
    + intros [post H]. now exists "", post.
    + intros [pre [post H]]. destruct pre; [|discriminate]. now exists post.
  - cbn [Str.contains]. rewrite orb_true_iff, prefix_iff, IH. split.
    + intros [[post H]|[pre [post H]]].
      * now exists "", post.
      * exists (String c pre), post. simpl. now rewrite H.
    + intros [pre [post H]]. destruct pre as [|c' pre].
      * left. now exists post.
      * right. injection H as _ H. now exists pre, post.
Qed.

(* ================================================================== *)
(** ** Sorting *)

Section SortFacts.
Context {A : Type} (key : A -> string).

Lemma insert_by_perm x l : Permutation (x :: l) (insert_by key x l).
Proof.
  induction l as [|y l IH]; simpl; [reflexivity|].
  destruct (String.leb (key x) (key y)); [reflexivity|].
  rewrite perm_swap. now constructor.
Qed.

Lemma sort_by_perm l : Permutation l (sort_by key l).
Proof.
  induction l as [|x l IH]; simpl; [reflexivity|].
  rewrite <- insert_by_perm. now constructor.
Qed.

Lemma insert_by_sorted x l :
  Sorted (key_le key) l -> Sorted (key_le key) (insert_by key x l).
Proof.
  induction l as [|y l IH]; simpl; intros Hs.
  - repeat constructor.
  - destruct (String.leb (key x) (key y)) eqn:E.
    + constructor; [exact Hs | now constructor].
    + inversion Hs as [|? ? Hs' Hhd]; subst.
      constructor; [now apply IH|].
      assert (Hyx : key_le key y x).
      { unfold key_le. destruct (String.leb_total (key x) (key y)); congruence. }
      destruct l as [|z l]; simpl.
      * now constructor.
      * destruct (String.leb (key x) (key z)); constructor; auto.
        now inversion Hhd.
Qed.

Lemma sort_by_sorted l : Sorted (key_le key) (sort_by key l).
Proof.
  induction l as [|x l IH]; simpl; [constructor | now apply insert_by_sorted].
Qed.

End SortFacts.

(* ================================================================== *)
(** ** Search *)

Lemma search_loop_filter k items hits :
  search_loop k items hits
  = hits ++ List.map fst (List.filter (hit_item k) items).
Proof.
  revert hits. induction items as [|[site rec] items IH]; intros hits; simpl.
  - now rewrite app_nil_r.
  - rewrite IH. unfold hit_item at 2. simpl.
    destruct (search_hit k site rec); simpl; [|reflexivity].
    now rewrite <- app_assoc.
Qed.

Lemma NoDup_keys_filter {V} (f : string * V -> bool) (d : dict V) :
  dict_wf d -> NoDup (List.map fst (List.filter f d)).
Proof.
  unfold dict_wf, dict_keys. induction d as [|[k v] d IH]; simpl; intros Hwf.
  - constructor.
  - inversion Hwf as [|? ? Hnotin Hwf']; subst.
    destruct (f (k, v)); simpl; [|now apply IH].
    constructor; [|now apply IH].
    intros Hin. apply Hnotin. apply in_map_iff in Hin.
    destruct Hin as [[k' v'] [Hk Hin]]. apply filter_In in Hin.
    apply in_map_iff. exists (k', v'). tauto.
Qed.

(** The sites that [search_entries] returns for a non-empty keyword. *)
Lemma search_entries_In (s : Store) (kw site : string) :
  dict_wf (entries s) -> kw <> "" ->
  In site (search_entries s (Some kw)) <->
  exists rec, dict_get site (entries s) = Some rec
    /\ search_hit (Str.lower kw) site rec = true.
Proof.
  intros Hwf Hkw. unfold search_entries.
  rewrite (truthy_nonempty _ Hkw). cbn [negb]. cbv zeta.
  rewrite search_loop_filter. cbn [app]. split.
  - intros Hin.
    apply (Permutation_in _ (Permutation_sym (sort_by_perm _ _))) in Hin.
    apply in_map_iff in Hin. destruct Hin as [[k rec] [Hk Hin]].
    simpl in Hk. subst k. apply filter_In in Hin. destruct Hin as [Hin Hhit].
    exists rec. split; [now apply dict_In_get | exact Hhit].
  - intros [rec [Hget Hhit]].
    apply (Permutation_in _ (sort_by_perm _ _)).
    apply in_map_iff. exists (site, rec). split; [reflexivity|].
    apply filter_In. split; [now apply dict_get_In | exact Hhit].
Qed.

(** C8. [search_entries] returns the empty list for an absent or empty
    keyword.  For any other keyword the list is sorted in the order of
    strings, has no site twice, and holds exactly the keys of the entries
    where the lower-cased keyword occurs in the lower-cased key or in the
    lower-cased user name. *)
Theorem search_entries_correct (s : Store) (kw : string) :
  dict_wf (entries s) ->
  search_entries s None = []
  /\ search_entries s (Some "") = []
  /\ (kw <> "" ->
      let hits := search_entries s (Some kw) in
      Sorted (fun a b => String.leb a b = true) hits
      /\ NoDup hits
      /\ forall site,
           In site hits <->
           exists rec, dict_get site (entries s) = Some rec
             /\ (substring_of (Str.lower kw) (Str.lower site)
                 \/ substring_of (Str.lower kw) (Str.lower (username rec)))).
Proof.
  intros Hwf. split; [reflexivity|]. split; [reflexivity|].
  intros Hkw hits. split; [|split].
  - subst hits. unfold search_entries.
    rewrite (truthy_nonempty _ Hkw). cbn [negb]. cbv zeta.
    apply (sort_by_sorted (fun x : string => x)).
  - subst hits. unfold search_entries.
    rewrite (truthy_nonempty _ Hkw). cbn [negb]. cbv zeta.
    apply (Permutation_NoDup (sort_by_perm _ _)).
    rewrite search_loop_filter. cbn [app]. now apply NoDup_keys_filter.
  - intros site. subst hits. rewrite (search_entries_In _ _ _ Hwf Hkw).
    split; intros [rec [Hget Hhit]]; exists rec; (split; [exact Hget|]).
    + unfold search_hit in Hhit. apply orb_true_iff in Hhit.
      now rewrite !contains_iff in Hhit.
    + unfold search_hit. apply orb_true_iff. now rewrite !contains_iff.
Qed.

Lemma search_entries_correct_witness :
  search_entries git_store None = []
  /\ search_entries git_store (Some "") = []
  /\ ("AL" <> "" ->
      let hits := search_entries git_store (Some "AL") in
      Sorted (fun a b => String.leb a b = true) hits
      /\ NoDup hits
      /\ forall site,
           In site hits <->
           exists rec, dict_get site (entries git_store) = Some rec
             /\ (substring_of (Str.lower "AL") (Str.lower site)
                 \/ substring_of (Str.lower "AL") (Str.lower (username rec)))).
Proof.
  apply (search_entries_correct git_store "AL").
  unfold dict_wf. simpl. repeat constructor; simpl; intuition discriminate.
Defined.

(** The searches of the example. *)
Example search_entries_example :
  search_entries git_store (Some "git") = ["github.com"; "gitlab.com"]
  /\ search_entries git_store (Some "al") = ["github.com"].
Proof. split; reflexivity. Qed.

(* ================================================================== *)
(** ** Statistics *)

Lemma min_from_spec best l :
  (min_from best l = best \/ In (min_from best l) l)
  /\ String.leb (min_from best l) best = true
  /\ (forall x, In x l -> String.leb (min_from best l) x = true).
Proof.
  revert best. induction l as [|x l IH]; intros best; simpl.
  - split; [now left|]. split; [apply string_leb_refl | tauto].
  - set (b := if String.ltb x best then x else best).
    destruct (IH b) as [Hin [Hb Hall]].
    assert (Hbb : String.leb b best = true).
    { subst b. destruct (String.ltb x best) eqn:E;
        [now apply string_ltb_true_leb | apply string_leb_refl]. }
    assert (Hbx : String.leb b x = true).
    { subst b. destruct (String.ltb x best) eqn:E;
        [apply string_leb_refl | now apply string_ltb_false_leb]. }
    split; [|split].
    + destruct Hin as [Hin|Hin]; [|now right; right].
      rewrite Hin. subst b. destruct (String.ltb x best); auto.
    + eapply string_leb_trans; eauto.
    + intros y [<-|Hy]; [eapply string_leb_trans; eauto | now apply Hall].
Qed.

Lemma max_from_spec best l :
  (max_from best l = best \/ In (max_from best l) l)
  /\ String.leb best (max_from best l) = true
  /\ (forall x, In x l -> String.leb x (max_from best l) = true).
Proof.
  revert best. induction l as [|x l IH]; intros best; simpl.
  - split; [now left|]. split; [apply string_leb_refl | tauto].
  - set (b := if String.ltb best x then x else best).
    destruct (IH b) as [Hin [Hb Hall]].
    assert (Hbb : String.leb best b = true).
    { subst b. destruct (String.ltb best x) eqn:E;
        [now apply string_ltb_true_leb | apply string_leb_refl]. }
    assert (Hbx : String.leb x b = true).
    { subst b. destruct (String.ltb best x) eqn:E;
        [apply string_leb_refl | now apply string_ltb_false_leb]. }
    split; [|split].
    + destruct Hin as [Hin|Hin]; [|now right; right].
      rewrite Hin. subst b. destruct (String.ltb best x); auto.
    + eapply string_leb_trans; eauto.
    + intros y [<-|Hy]; [eapply string_leb_trans; eauto | now apply Hall].
Qed.

Lemma py_min_least x l : exists t, py_min (x :: l) = Some t /\ is_least t (x :: l).
Proof.
  exists (min_from x l). split; [reflexivity|].
  destruct (min_from_spec x l) as [Hin [Hx Hall]]. split.
  - destruct Hin as [->|Hin]; [now left | now right].
  - intros y [<-|Hy]; auto.
Qed.

Lemma py_max_greatest x l :
  exists t, py_max (x :: l) = Some t /\ is_greatest t (x :: l).
Proof.
  exists (max_from x l). split; [reflexivity|].
  destruct (max_from_spec x l) as [Hin [Hx Hall]]. split.
  - destruct Hin as [->|Hin]; [now left | now right].
  - intros y [<-|Hy]; auto.
Qed.





(** The statistics of the two sample stores. *)
Example stats_example :
  stats empty_store = mkStats 0 None None 0
  /\ stats git_store
     = mkStats 2 (Some "2025-09-04T13:30:00Z") (Some "2025-09-04T13:40:00Z")
               (inject_Z 13 / inject_Z 2)%Q.
Proof. split; reflexivity. Qed.

(* ================================================================== *)
(** ** The schema validator *)

Lemma check_metadata_iff fields meta :
  check_metadata fields meta = Done tt <-> fields_ok fields meta.
Proof.
  unfold fields_ok. induction fields as [|[key typ] fields IH]; simpl.
  - split; [constructor | reflexivity].
  - destruct (dict_get key meta) as [v|] eqn:E.
    + destruct (isinstance v typ) eqn:Ei; simpl.
      * rewrite IH. split; intros H.
        -- constructor; [now exists v | exact H].
        -- now inversion H.
      * split; [discriminate|]. intros H. inversion H as [|? ? [v' [Hv Hi]] _].
        simpl in Hv, Hi. congruence.
    + split; [discriminate|]. intros H. inversion H as [|? ? [v' [Hv Hi]] _].
      simpl in Hv. congruence.
Qed.

Lemma check_record_iff site fields r :
  check_record site fields r = Done tt <-> fields_ok fields r.
Proof.
  unfold fields_ok. induction fields as [|[key typ] fields IH]; simpl.
  - split; [constructor | reflexivity].
  - destruct (dict_get key r) as [v|] eqn:E.
    + destruct (isinstance v typ) eqn:Ei; simpl.
      * rewrite IH. split; intros H.
        -- constructor; [now exists v | exact H].
        -- now inversion H.
      * split; [discriminate|]. intros H. inversion H as [|? ? [v' [Hv Hi]] _].
        simpl in Hv, Hi. congruence.
    + split; [discriminate|]. intros H. inversion H as [|? ? [v' [Hv Hi]] _].
      simpl in Hv. congruence.
Qed.

Lemma record_ok_fields r : record_ok (PDict r) <-> fields_ok record_fields r.
Proof.
  unfold record_ok, fields_ok, record_fields. split.
  - intros [r' [[= <-] [Hu [Hp Ht]]]]. repeat constructor; assumption.
  - intros H. exists r. split; [reflexivity|].
    inversion H as [|? ? Hu H1]; subst. inversion H1 as [|? ? Hp H2]; subst.
    inversion H2 as [|? ? Ht _]; subst. auto.
Qed.

Lemma check_entries_iff es :
  check_entries es = Done tt <-> Forall (fun item => record_ok (snd item)) es.
Proof.
  induction es as [|[site rec] es IH]; cbn [check_entries].
  - split; [constructor | reflexivity].
  - assert (Hno : forall msg : string,
              (forall r, rec <> PDict r) ->
              (@SysExit unit msg = Done tt <->
               Forall (fun item => record_ok (snd item)) ((site, rec) :: es))).
    { intros msg Hr. split; [discriminate|]. intros H.
      inversion H as [|? ? [r [Hrec _]] _]. simpl in Hrec.
      exfalso. exact (Hr r Hrec). }
    destruct rec as [| | | | | |r]; try (apply Hno; intros r; discriminate).
    destruct (check_record site record_fields r) as [[]|msg|key] eqn:E;
      cbv beta iota.
    + rewrite IH. apply check_record_iff in E. apply record_ok_fields in E.
      split; intros H; [now constructor | now inversion H].
    + split; [discriminate|]. intros H. inversion H as [|? ? Hr _].
      simpl in Hr. apply record_ok_fields, (check_record_iff site) in Hr.
      congruence.
    + split; [discriminate|]. intros H. inversion H as [|? ? Hr _].
      simpl in Hr. apply record_ok_fields, (check_record_iff site) in Hr.
      congruence.
Qed.

Lemma ne_int_false c n : ne_int c n = false <-> int_value c = Some n.
Proof.
  unfold ne_int. destruct (int_value c) as [m|].
  - rewrite negb_false_iff, Z.eqb_eq. split; congruence.
  - split; discriminate.
Qed.

Lemma validate_store_schema_iff (store : pyval) :
  validate_store_schema store = Done tt <-> schema_ok store.
Proof.
  unfold schema_ok, validate_store_schema. split.
  - destruct store as [| | | | | |top]; try discriminate.
    unfold dict_in.
    destruct (dict_get "metadata" top) as [[| | | | | |meta]|] eqn:Em;
      cbn [negb orb]; try discriminate;
      destruct (dict_get "entries" top) as [[| | | | | |es]|] eqn:Ee;
      cbn [negb orb]; try discriminate.
    destruct (check_metadata metadata_fields meta) as [[]|msg|key] eqn:Hm;
      try discriminate.
    destruct (check_entries es) as [[]|msg|key] eqn:Hes; try discriminate.
    destruct (dict_get "count" meta) as [c|] eqn:Ec; try discriminate.
    destruct (ne_int c (dict_len es)) eqn:Hc; try discriminate.
    intros _. exists top, meta, es, c.
    apply check_metadata_iff in Hm. apply check_entries_iff in Hes.
    apply ne_int_false in Hc.
    inversion Hm as [|? ? Hv H1]; subst. inversion H1 as [|? ? Hca H2]; subst.
    inversion H2 as [|? ? Hua _]; subst. tauto.
  - intros [top [meta [es [c [-> [Em [Ee [Hv [Hca [Hua [Ec [Hc Hes]]]]]]]]]]]].
    unfold dict_in. rewrite Em, Ee. cbn [negb orb].
    assert (Hm : check_metadata metadata_fields meta = Done tt).
    { apply check_metadata_iff. unfold fields_ok, metadata_fields.
      repeat constructor; try assumption.
      exists c. split; [exact Ec|]. destruct c; simpl in *; congruence. }
    rewrite Hm. apply check_entries_iff in Hes. rewrite Hes, Ec.
    apply ne_int_false in Hc. now rewrite Hc.
Qed.

Lemma pyval_of_store_schema_ok (s : Store) :
  count_ok s -> schema_ok (pyval_of_store s).
Proof.
  intros Hc. unfold pyval_of_store.
  eexists _, _, _, _. split; [reflexivity|].
  split; [reflexivity|]. split; [reflexivity|].
  split; [eexists; split; reflexivity|].
  split; [eexists; split; reflexivity|].
  split; [eexists; split; reflexivity|].
  split; [reflexivity|]. split.
  - simpl. unfold dict_len. rewrite length_map. now rewrite Hc.
  - apply Forall_forall. intros [k v] Hin. apply in_map_iff in Hin.
    destruct Hin as [[k' e] [[= <- <-] _]]. simpl.
    eexists. split; [reflexivity|].
    repeat split; eexists; split; reflexivity.
Qed.

(** C4, as stated, fails: the validator returns on a document in which a
    record holds the empty string as user name. *)
Lemma validate_accepts_empty_username :
  has_empty_credential (pyval_of_store blank_user_store)
  /\ validate_store_schema (pyval_of_store blank_user_store) = Done tt.
Proof.
  split; [|reflexivity].
  unfold has_empty_credential, pyval_of_store. simpl.
  eexists _, _, "github.com", _.
  split; [reflexivity|]. split; [reflexivity|]. split; [reflexivity|].
  left. reflexivity.
Qed.

(** C4, amended. The validator returns exactly on the documents in which
    [metadata] and [entries] are objects, every required field is present
    with its declared type and [metadata.count] is the number of entries;
    any other document makes it exit.  It does not look at the contents of
    the strings: the document of every store whose count matches is
    accepted, whatever its user names and passwords are. *)
Theorem validate_store_schema_accepts (store : pyval) :
  (validate_store_schema store = Done tt <-> schema_ok store)
  /\ (forall s : Store,
        count_ok s -> validate_store_schema (pyval_of_store s) = Done tt).
Proof.
  split; [apply validate_store_schema_iff|].
  intros s Hc. apply validate_store_schema_iff. now apply pyval_of_store_schema_ok.
Qed.

Lemma validate_store_schema_accepts_witness :
  count_ok git_store
  /\ validate_store_schema (pyval_of_store git_store) = Done tt.
Proof.
  split; [reflexivity|].
  apply (proj2 (validate_store_schema_accepts PNone) git_store). reflexivity.
Defined.

(** The rejections of the examples: no [metadata.count], and a count that
    differs from the number of entries. *)
Example validate_rejects_examples :
  validate_store_schema
    (PDict [("metadata",
             PDict [("version", PInt 1); ("created_at", PStr "2025-09-04T13:00:00Z");
                    ("updated_at", PStr "2025-09-04T13:00:00Z")]);
            ("entries", PDict [])])
  = SysExit "Invalid store schema: metadata missing 'count'."
  /\ validate_store_schema
       (pyval_of_store (mkStore (with_count 3 (metadata git_store))
                                (entries git_store)))
     = SysExit "Invalid store schema: metadata.count does not match number of entries.".
Proof. split; reflexivity. Qed.

(* ================================================================== *)
(** ** Further properties of the engine *)

(** A call of the engine keeps the keys of [entries] distinct. *)
Lemma exec_op_dict_wf o w :
  dict_wf (entries (w_store w)) ->
  dict_wf (entries (w_store (snd (exec_op o w)))).
Proof.
  intros H.
  assert (Hrw : forall f w0, dict_wf (entries (w_store w0)) ->
            dict_wf (entries (w_store (rewritten (normalize_site_of o) f w0)))).
  { intros f w0 H0. unfold dict_wf. now rewrite rewritten_keys. }
  destruct o as [site u p|site u p|site]; simpl exec_op.
  - destruct site as [site|]; [|exact H].
    rewrite add_entry_run. cbv zeta.
    destruct (negb (Str.truthy u) || negb (Str.truthy p)); [exact H|].
    destruct (dict_in (normalize_site site) (entries (w_store w))); [exact H|].
    cbn [snd added w_store entries]. now apply dict_wf_set.
  - destruct site as [site|]; [|exact H].
    rewrite update_entry_run. cbv zeta. simpl normalize_site_of in Hrw.
    destruct u as [[|c u]|], p as [[|c' p]|]; try exact H;
      destruct (dict_in (normalize_site site) (entries (w_store w)));
      cbn [negb snd]; try exact H;
      unfold stamped; cbv zeta; cbn [w_store entries];
      repeat apply Hrw; exact H.
  - destruct site as [site|]; [|exact H].
    rewrite delete_entry_run. cbv zeta.
    destruct (dict_in (normalize_site site) (entries (w_store w))); [|exact H].
    cbn [snd deleted w_store entries]. now apply dict_wf_del.
Qed.

(** A returning [add_entry] raises [metadata.count] by one. *)
Lemma add_entry_count (w w' : World) (site u p : string) :
  count_ok (w_store w) ->
  add_entry (Some site) u p w = (Done tt, w') ->
  count (metadata (w_store w')) = (count (metadata (w_store w)) + 1)%Z.
Proof.
  intros Hc Hrun. rewrite add_entry_run in Hrun. cbv zeta in Hrun.
  destruct (negb (Str.truthy u) || negb (Str.truthy p)); [discriminate|].
  destruct (dict_in (normalize_site site) (entries (w_store w))) eqn:E;
    [discriminate|].
  injection Hrun as <-. cbn [added w_store metadata with_updated_at with_count count].
  rewrite Hc. now apply dict_len_set_new.
Qed.

(** A returning [delete_entry] lowers [metadata.count] by one, and
    [get_entry] no longer finds the site. *)
Lemma delete_entry_then_get (w w' : World) (site : string) :
  count_ok (w_store w) ->
  dict_wf (entries (w_store w)) ->
  delete_entry (Some site) w = (Done tt, w') ->
  count (metadata (w_store w')) = (count (metadata (w_store w)) - 1)%Z
  /\ get_entry (Some site) w' = (Done None, w').
Proof.
  intros Hc Hwf Hrun. rewrite delete_entry_run in Hrun. cbv zeta in Hrun.
  destruct (dict_in (normalize_site site) (entries (w_store w))) eqn:E;
    [|discriminate].
  injection Hrun as <-. split.
  - cbn [deleted w_store metadata with_updated_at with_count count].
    rewrite Hc. now apply dict_len_del.
  - unfold get_entry, bind, get_entries, ret.
    cbn [deleted w_store entries]. now rewrite dict_get_del_same.
Qed.

(* ================================================================== *)
(** ** Time stamps as strings *)

Lemma lex_eq_r c : lex c Eq = c.
Proof. now destruct c. Qed.

Lemma ascii_compare_refl c : Ascii.compare c c = Eq.
Proof. unfold Ascii.compare. apply N.compare_refl. Qed.

Lemma digit_compare a b :
  (a < 10)%N -> (b < 10)%N -> Ascii.compare (digit a) (digit b) = (a ?= b)%N.
Proof.
  intros Ha Hb. unfold Ascii.compare, digit.
  rewrite !N_ascii_embedding by lia.
  destruct (N.compare_spec (48 + a) (48 + b)); destruct (N.compare_spec a b);
    try reflexivity; exfalso; lia.
Qed.

Lemma compare_digit_cons a b s s' :
  (a < 10)%N -> (b < 10)%N ->
  String.compare (String (digit a) s) (String (digit b) s')
  = lex (a ?= b)%N (String.compare s s').
Proof.
  intros Ha Hb. cbn [String.compare]. rewrite digit_compare by assumption.
  now destruct (a ?= b)%N.
Qed.

Lemma compare_same_cons c s s' :
  String.compare (String c s) (String c s') = String.compare s s'.
Proof. cbn [String.compare]. now rewrite ascii_compare_refl. Qed.

(** Quotient and remainder compare as the number they make up. *)
Lemma lex_quot_rem (B q r q' r' : N) c :
  (r < B)%N -> (r' < B)%N ->
  lex (q ?= q')%N (lex (r ?= r')%N c) = lex (B * q + r ?= B * q' + r')%N c.
Proof.
  intros Hr Hr'.
  destruct (N.compare_spec q q') as [->|Hq|Hq].
  - cbn [lex].
    destruct (N.compare_spec r r') as [Hrr|Hrr|Hrr];
      destruct (N.compare_spec (B * q' + r) (B * q' + r'));
      cbn [lex]; try reflexivity; exfalso; lia.
  - destruct (N.compare_spec (B * q + r) (B * q' + r'));
      cbn [lex]; try reflexivity; exfalso; nia.
  - destruct (N.compare_spec (B * q + r) (B * q' + r'));
      cbn [lex]; try reflexivity; exfalso; nia.
Qed.

(** Two digits compare as the number they write. *)
Lemma lex_two_digits m n c :
  lex (m / 10 ?= n / 10)%N (lex (m mod 10 ?= n mod 10)%N c) = lex (m ?= n)%N c.
Proof.
  rewrite (lex_quot_rem 10) by (apply N.mod_lt; discriminate).
  now rewrite <- !N.div_mod'.
Qed.

(** Two pairs of digits compare as the number they write. *)
Lemma lex_two_pairs m n c :
  lex (m / 100 ?= n / 100)%N (lex (m mod 100 ?= n mod 100)%N c)
  = lex (m ?= n)%N c.
Proof.
  rewrite (lex_quot_rem 100) by (apply N.mod_lt; discriminate).
  now rewrite <- !N.div_mod'.
Qed.

Lemma lex_assoc c1 c2 c3 : lex (lex c1 c2) c3 = lex c1 (lex c2 c3).
Proof. now destruct c1. Qed.

Lemma pad2_compare m n s s' :
  (m < 100)%N -> (n < 100)%N ->
  String.compare (pad2 m ++ s) (pad2 n ++ s')
  = lex (m ?= n)%N (String.compare s s').
Proof.
  intros Hm Hn. unfold pad2. cbn [append].
  assert (Qm : (m / 10 < 10)%N) by (apply N.Div0.div_lt_upper_bound; lia).
  assert (Qn : (n / 10 < 10)%N) by (apply N.Div0.div_lt_upper_bound; lia).
  pose proof (N.mod_lt m 10 ltac:(discriminate)) as Lm.
  pose proof (N.mod_lt n 10 ltac:(discriminate)) as Ln.
  rewrite !compare_digit_cons by assumption.
  apply lex_two_digits.
Qed.

Lemma string_append_assoc (a b c : string) :
  ((a ++ b) ++ c = a ++ (b ++ c))%string.
Proof. induction a as [|x a IH]; simpl; [reflexivity | now rewrite IH]. Qed.

Lemma pad4_pairs n : pad4 n = (pad2 (n / 100) ++ pad2 (n mod 100))%string.
Proof.
  unfold pad4. unfold pad2 at 2. cbn [append].
  now rewrite N.Div0.div_div.
Qed.

Lemma pad4_compare m n s s' :
  (m < 10000)%N -> (n < 10000)%N ->
  String.compare (pad4 m ++ s) (pad4 n ++ s')
  = lex (m ?= n)%N (String.compare s s').
Proof.
  intros Hm Hn. rewrite !pad4_pairs, !string_append_assoc.
  assert (Qm : (m / 100 < 100)%N) by (apply N.Div0.div_lt_upper_bound; lia).
  assert (Qn : (n / 100 < 100)%N) by (apply N.Div0.div_lt_upper_bound; lia).
  pose proof (N.mod_lt m 100 ltac:(discriminate)) as Lm.
  pose proof (N.mod_lt n 100 ltac:(discriminate)) as Ln.
  rewrite !pad2_compare by assumption.
  apply lex_two_pairs.
Qed.

Lemma pad2_length n : String.length (pad2 n) = 2%nat.
Proof. reflexivity. Qed.

(** The sample instants: 4 September 2025, 14:00:00 and one second before
    midnight of the last day of 1999. *)
Lemma current_time_in_ISO8601_example :
  current_time_in_ISO8601 (mkDatetime 2025 9 4 14 0 0) = "2025-09-04T14:00:00Z"
  /\ current_time_in_ISO8601 (mkDatetime 1999 12 31 23 59 59)
     = "1999-12-31T23:59:59Z".
Proof. split; reflexivity. Qed.

Lemma iso_compare (a b : datetime) :
  datetime_ok a -> datetime_ok b ->
  String.compare (current_time_in_ISO8601 a) (current_time_in_ISO8601 b)
  = datetime_compare a b.
Proof.
  intros Ha Hb. unfold datetime_ok in Ha, Hb.
  unfold current_time_in_ISO8601, datetime_compare.
  rewrite pad4_compare by lia. cbn [append]. rewrite compare_same_cons.
  rewrite pad2_compare by lia. cbn [append]. rewrite compare_same_cons.
  rewrite pad2_compare by lia. cbn [append]. rewrite compare_same_cons.
  rewrite pad2_compare by lia. cbn [append]. rewrite compare_same_cons.
  rewrite pad2_compare by lia. cbn [append]. rewrite compare_same_cons.
  rewrite pad2_compare by lia. cbn [String.compare].
  rewrite ascii_compare_refl. now rewrite lex_eq_r.
Qed.

(** X1. The strings that [current_time_in_ISO8601] builds have twenty
    characters, and two of them compare as strings the way their instants
    compare in time. *)
Theorem current_time_in_ISO8601_order (a b : datetime) :
  datetime_ok a -> datetime_ok b ->
  String.length (current_time_in_ISO8601 a) = 20%nat
  /\ String.compare (current_time_in_ISO8601 a) (current_time_in_ISO8601 b)
     = datetime_compare a b.
Proof.
  intros Ha Hb. split; [reflexivity | now apply iso_compare].
Qed.

Lemma current_time_in_ISO8601_order_witness :
  String.length (current_time_in_ISO8601 (mkDatetime 1999 12 31 23 59 59)) = 20%nat
  /\ String.compare
       (current_time_in_ISO8601 (mkDatetime 1999 12 31 23 59 59))
       (current_time_in_ISO8601 (mkDatetime 2025 9 4 14 0 0))
     = datetime_compare (mkDatetime 1999 12 31 23 59 59)
                        (mkDatetime 2025 9 4 14 0 0).
Proof.
  apply (current_time_in_ISO8601_order (mkDatetime 1999 12 31 23 59 59)
           (mkDatetime 2025 9 4 14 0 0));
    unfold datetime_ok; simpl; lia.
Defined.

(* ================================================================== *)
(** ** More on dictionaries *)

Section DictMore.
Context {V : Type}.
Implicit Types (d : dict V) (k : string) (v : V).

Lemma dict_get_del_other k k0 d :
  k0 <> k -> dict_get k0 (dict_del k d) = dict_get k0 d.
Proof.
  intros Hne. induction d as [|[k' v'] d IH]; simpl; [reflexivity|].
  destruct (String.eqb_spec k k') as [->|Hkk']; simpl.
  - destruct (String.eqb_spec k0 k'); [contradiction | reflexivity].
  - destruct (String.eqb_spec k0 k'); [reflexivity | exact IH].
Qed.

Lemma dict_set_new_app k v d :
  dict_in k d = false -> dict_set k v d = d ++ [(k, v)].
Proof.
  unfold dict_in. induction d as [|[k' v'] d IH]; simpl; [reflexivity|].
  destruct (String.eqb_spec k k'); [discriminate|].
  intros H. now rewrite IH.
Qed.

Lemma dict_del_set_new k v d :
  dict_in k d = false -> dict_del k (dict_set k v d) = d.
Proof.
  unfold dict_in. induction d as [|[k' v'] d IH]; simpl.
  - now rewrite String.eqb_refl.
  - destruct (String.eqb_spec k k') as [->|Hne]; [discriminate|]. simpl.
    destruct (String.eqb_spec k k'); [contradiction|].
    intros H. now rewrite IH.
Qed.

Lemma dict_del_filter k d :
  dict_wf d ->
  dict_del k d = List.filter (fun item => negb (String.eqb k (fst item))) d.
Proof.
  unfold dict_wf. induction d as [|[k' v'] d IH]; simpl; intros Hwf.
  - reflexivity.
  - inversion Hwf as [|? ? Hnotin Hwf']; subst.
    destruct (String.eqb_spec k k') as [->|Hne]; simpl.
    + symmetry. apply forallb_filter_id. apply forallb_forall.
      intros [k0 v0] Hin. simpl.
      destruct (String.eqb_spec k' k0) as [->|]; [|reflexivity].
      exfalso. apply Hnotin. change k0 with (fst (k0, v0)). now apply in_map.
    + now rewrite IH.
Qed.

Lemma dict_set_In k v d x :
  In x (dict_set k v d) -> x = (k, v) \/ In x d.
Proof.
  induction d as [|[k' v'] d IH]; simpl.
  - intros [<-|[]]. now left.
  - destruct (String.eqb_spec k k') as [->|Hne]; simpl.
    + intros [<-|H]; [now left | now right; right].
    + intros [<-|H]; [now right; left|].
      destruct (IH H); [now left | now right; right].
Qed.

Lemma dict_del_In k d x : In x (dict_del k d) -> In x d.
Proof.
  induction d as [|[k' v'] d IH]; simpl; [tauto|].
  destruct (String.eqb_spec k k'); simpl; [now right|].
  intros [<-|H]; [now left | right; now apply IH].
Qed.

End DictMore.

(* ================================================================== *)
(** ** When the mutations return, and what a failure leaves *)

Lemma truthy_true_iff s : Str.truthy s = true <-> s <> "".
Proof. destruct s; simpl; split; congruence. Qed.

(** X2. [add_entry] returns exactly when a site is given, the user name and
    the password are non-empty and the key of the site is not in the store;
    in every other case it exits and the world is as it was. *)
Theorem add_entry_outcome (w : World) (site : option string) (u p : string) :
  let r := add_entry site u p w in
  (fst r = Done tt <->
   exists s, site = Some s /\ u <> "" /\ p <> ""
     /\ dict_in (normalize_site s) (entries (w_store w)) = false)
  /\ (fst r = Done tt \/ (exited r /\ snd r = w)).
Proof.
  cbv zeta. destruct site as [s|].
  - rewrite add_entry_run. cbv zeta.
    destruct (Str.truthy u) eqn:Eu; destruct (Str.truthy p) eqn:Ep;
      cbn [negb orb];
      try (split; [split; [discriminate|] | right; split;
             [eexists; reflexivity | reflexivity]];
           intros [s' [_ [Hu [Hp _]]]];
           apply truthy_true_iff in Hu; apply truthy_true_iff in Hp;
           congruence).
    apply truthy_true_iff in Eu. apply truthy_true_iff in Ep.
    destruct (dict_in (normalize_site s) (entries (w_store w))) eqn:E.
    + split; [split; [discriminate|] | right; split;
              [eexists; reflexivity | reflexivity]].
      intros [s' [[= <-] [_ [_ H]]]]. congruence.
    + split; [|now left]. split; [|reflexivity].
      intros _. exists s. auto.
  - split; [|right; split; [eexists; reflexivity | reflexivity]].
    split; [discriminate|]. intros [s [H _]]. discriminate.
Qed.

(** X3. [delete_entry] returns exactly when a site is given and its key is
    in the store; in every other case it exits and the world is as it
    was. *)
Theorem delete_entry_outcome (w : World) (site : option string) :
  let r := delete_entry site w in
  (fst r = Done tt <->
   exists s, site = Some s
     /\ dict_in (normalize_site s) (entries (w_store w)) = true)
  /\ (fst r = Done tt \/ (exited r /\ snd r = w)).
Proof.
  cbv zeta. destruct site as [s|].
  - rewrite delete_entry_run. cbv zeta.
    destruct (dict_in (normalize_site s) (entries (w_store w))) eqn:E.
    + split; [|now left]. split; [|reflexivity]. intros _. now exists s.
    + split; [split; [discriminate|] | right; split;
              [eexists; reflexivity | reflexivity]].
      intros [s' [[= <-] H]]. congruence.
  - split; [|right; split; [eexists; reflexivity | reflexivity]].
    split; [discriminate|]. intros [s [H _]]. discriminate.
Qed.

Lemma rewritten_get_opt k f w :
  dict_get k (entries (w_store (rewritten k f w)))
  = option_map f (dict_get k (entries (w_store w))).
Proof.
  destruct (dict_get k (entries (w_store w))) as [e|] eqn:E.
  - now rewrite (rewritten_get _ _ _ _ E).
  - unfold rewritten. cbv zeta. now rewrite E.
Qed.

Lemma stamped_get k w e :
  dict_get k (entries (w_store w)) = Some e ->
  dict_get k (entries (w_store (stamped k w)))
  = Some (with_last_updated (w_clock w (w_reads w)) e).
Proof.
  intros H. unfold stamped. cbv zeta. cbn [w_store entries].
  now apply rewritten_get.
Qed.

Lemma stamped_get_other k k0 w :
  k0 <> k ->
  dict_get k0 (entries (w_store (stamped k w)))
  = dict_get k0 (entries (w_store w)).
Proof.
  intros H. unfold stamped. cbv zeta. cbn [w_store entries].
  now apply rewritten_get_other.
Qed.

Lemma stamped_keys k w :
  dict_keys (entries (w_store (stamped k w))) = dict_keys (entries (w_store w)).
Proof. unfold stamped. cbv zeta. cbn [w_store entries]. apply rewritten_keys. Qed.

Lemma stamped_metadata k w :
  metadata (w_store (stamped k w))
  = with_updated_at (w_clock w (S (w_reads w))) (metadata (w_store w)).
Proof.
  unfold stamped. cbv zeta. cbn [w_store metadata].
  now rewrite rewritten_metadata.
Qed.

Lemma stamped_clock k w : w_clock (stamped k w) = w_clock w.
Proof. reflexivity. Qed.

Lemma stamped_reads k w : w_reads (stamped k w) = S (S (w_reads w)).
Proof. reflexivity. Qed.

(** X4. [update_entry] returns exactly when a site is given, at least one
    of the two fields is given, the key of the site is in the store and no
    given field is the empty string. *)
Theorem update_entry_outcome (w : World) (site : option string)
  (u p : option string) :
  fst (update_entry site u p w) = Done tt <->
  exists s, site = Some s
    /\ (u <> None \/ p <> None)
    /\ dict_in (normalize_site s) (entries (w_store w)) = true
    /\ field_given_ok u /\ field_given_ok p.
Proof.
  destruct site as [s|].
  - rewrite update_entry_run. cbv zeta.
    destruct u as [[|c u]|], p as [[|c' p]|];
      try destruct (dict_in (normalize_site s) (entries (w_store w))) eqn:E;
      cbn [negb fst]; (split; [intros H | intros [s' [Hs [Hg [Hin [Hu Hp]]]]]]);
      try discriminate; try reflexivity;
      try (injection Hs as <-); try congruence;
      try (now simpl in Hu); try (now simpl in Hp);
      try (destruct Hg; congruence);
      exists s; (repeat split; try exact I); try exact E;
      try (left; discriminate); try (right; discriminate).
  - split; [discriminate|]. intros [s [H _]]. discriminate.
Qed.

(** X5. When [update_entry] exits, the metadata, the clock, the keys and
    their order are as they were, every key still holds a record with the
    password and the [last_updated] it had, and the keys that the site does
    not address hold the very records they held. *)
Theorem update_entry_failure_extent (w : World) (site : option string)
  (u p : option string) :
  let r := update_entry site u p w in
  fst r = Done tt
  \/ (exited r
      /\ metadata (w_store (snd r)) = metadata (w_store w)
      /\ w_clock (snd r) = w_clock w
      /\ w_reads (snd r) = w_reads w
      /\ dict_keys (entries (w_store (snd r))) = dict_keys (entries (w_store w))
      /\ (forall k, same_but_username (dict_get k (entries (w_store (snd r))))
                                      (dict_get k (entries (w_store w))))
      /\ (forall k, ~ addresses site k ->
            dict_get k (entries (w_store (snd r)))
            = dict_get k (entries (w_store w)))).
Proof.
  cbv zeta.
  assert (Hsame : forall k, same_but_username (dict_get k (entries (w_store w)))
                                              (dict_get k (entries (w_store w)))).
  { intros k. unfold same_but_username.
    destruct (dict_get k (entries (w_store w))); auto. }
  assert (Hw : forall msg : string,
            exited (@SysExit unit msg, w)
            /\ metadata (w_store w) = metadata (w_store w)
            /\ w_clock w = w_clock w /\ w_reads w = w_reads w
            /\ dict_keys (entries (w_store w)) = dict_keys (entries (w_store w))
            /\ (forall k, same_but_username (dict_get k (entries (w_store w)))
                                            (dict_get k (entries (w_store w))))
            /\ (forall k, ~ addresses site k ->
                  dict_get k (entries (w_store w)) = dict_get k (entries (w_store w)))).
  { intros msg. repeat split; auto. now exists msg. }
  destruct site as [s|]; [|right; apply Hw].
  rewrite update_entry_run. cbv zeta.
  destruct u as [[|c u]|], p as [[|c' p]|];
    try (right; apply Hw);
    destruct (dict_in (normalize_site s) (entries (w_store w))) eqn:E;
    cbn [negb fst snd]; try (right; apply Hw); try (now left).
  right. split; [eexists; reflexivity|].
  rewrite rewritten_metadata, rewritten_clock, rewritten_reads, rewritten_keys.
  repeat split.
  - intros k. destruct (String.eqb_spec k (normalize_site s)) as [->|Hne].
    + rewrite rewritten_get_opt.
      destruct (dict_get (normalize_site s) (entries (w_store w))); simpl; auto.
    + rewrite rewritten_get_other by exact Hne. apply Hsame.
  - intros k Hk. apply rewritten_get_other. intros ->. apply Hk. now exists s.
Qed.

(** X6. When [update_entry] returns, the key of the site held a record, and
    now holds it with the given fields replaced and the clock reading as
    [last_updated]; every other key holds what it held, the keys and their
    order are the same, the metadata differ in [updated_at] only, which is
    the next reading, and the clock has been read twice. *)
Theorem update_entry_frame (w w' : World) (site : string) (u p : option string) :
  update_entry (Some site) u p w = (Done tt, w') ->
  let k := normalize_site site in
  (exists e, dict_get k (entries (w_store w)) = Some e
     /\ dict_get k (entries (w_store w'))
        = Some (updated_entry u p (w_clock w (w_reads w)) e))
  /\ (forall k0, k0 <> k ->
        dict_get k0 (entries (w_store w')) = dict_get k0 (entries (w_store w)))
  /\ dict_keys (entries (w_store w')) = dict_keys (entries (w_store w))
  /\ metadata (w_store w')
     = with_updated_at (w_clock w (S (w_reads w))) (metadata (w_store w))
  /\ w_clock w' = w_clock w
  /\ w_reads w' = S (S (w_reads w)).
Proof.
  intros Hrun k. rewrite update_entry_run in Hrun. cbv zeta in Hrun.
  fold k in Hrun.
  destruct (dict_get k (entries (w_store w))) as [e|] eqn:He.
  2:{ unfold dict_in in Hrun. rewrite He in Hrun.
      destruct u as [[|c u]|], p as [[|c' p]|]; discriminate. }
  assert (Hin : dict_in k (entries (w_store w)) = true)
    by (unfold dict_in; now rewrite He).
  rewrite Hin in Hrun. cbn [negb] in Hrun.
  destruct u as [[|c u]|], p as [[|c' p]|]; try discriminate;
    injection Hrun as <-;
    rewrite stamped_keys, stamped_metadata, stamped_clock, stamped_reads;
    rewrite ?rewritten_keys, ?rewritten_metadata, ?rewritten_clock,
      ?rewritten_reads;
    (split; [exists e; split; [reflexivity|] | split; [|repeat split]]).
  - rewrite (stamped_get _ _ _
               (rewritten_get _ _ _ _ (rewritten_get _ (with_username _) _ _ He))).
    now rewrite !rewritten_clock, !rewritten_reads.
  - intros k0 Hk0. now rewrite stamped_get_other, !rewritten_get_other.
  - rewrite (stamped_get _ _ _ (rewritten_get _ (with_username _) _ _ He)).
    now rewrite !rewritten_clock, !rewritten_reads.
  - intros k0 Hk0. now rewrite stamped_get_other, !rewritten_get_other.
  - rewrite (stamped_get _ _ _ (rewritten_get _ (with_password _) _ _ He)).
    now rewrite !rewritten_clock, !rewritten_reads.
  - intros k0 Hk0. now rewrite stamped_get_other, !rewritten_get_other.
Qed.

Lemma update_entry_frame_witness :
  let w' := snd (update_entry (Some " GitHub.com") (Some "bob") (Some "pw2") one_world) in
  (exists e, dict_get "github.com" (entries one_store) = Some e
     /\ dict_get "github.com" (entries (w_store w'))
        = Some (updated_entry (Some "bob") (Some "pw2") "2025-09-04T14:00:00Z" e))
  /\ (forall k0, k0 <> "github.com" ->
        dict_get k0 (entries (w_store w')) = dict_get k0 (entries one_store))
  /\ dict_keys (entries (w_store w')) = ["github.com"]
  /\ metadata (w_store w')
     = with_updated_at "2025-09-04T14:00:01Z" (metadata one_store)
  /\ w_clock w' = sample_clock
  /\ w_reads w' = 2%nat.
Proof.
  apply (update_entry_frame one_world _ " GitHub.com" (Some "bob") (Some "pw2")).
  reflexivity.
Defined.

(* ================================================================== *)
(** ** The frames of add and delete *)

(** X7. When [add_entry] returns, the new record is the last item of
    [entries], under the normalized key and stamped with the clock reading;
    the items before it are the old ones, so every other key holds what it
    held; the count is the old length plus one, [updated_at] is the next
    reading, [version] and [created_at] are kept, and the clock has been
    read twice. *)
Theorem add_entry_frame (w w' : World) (site u p : string) :
  add_entry (Some site) u p w = (Done tt, w') ->
  let k := normalize_site site in
  entries (w_store w')
    = entries (w_store w) ++ [(k, mkEntry u p (w_clock w (w_reads w)))]
  /\ (forall k0, k0 <> k ->
        dict_get k0 (entries (w_store w')) = dict_get k0 (entries (w_store w)))
  /\ metadata (w_store w')
     = mkMetadata (version (metadata (w_store w)))
                  (created_at (metadata (w_store w)))
                  (w_clock w (S (w_reads w)))
                  (dict_len (entries (w_store w)) + 1)
  /\ w_clock w' = w_clock w
  /\ w_reads w' = S (S (w_reads w)).
Proof.
  intros Hrun k. rewrite add_entry_run in Hrun. cbv zeta in Hrun. fold k in Hrun.
  destruct (negb (Str.truthy u) || negb (Str.truthy p)); [discriminate|].
  destruct (dict_in k (entries (w_store w))) eqn:E; [discriminate|].
  injection Hrun as <-. unfold added. cbv zeta.
  cbn [w_store entries metadata w_clock w_reads]. repeat split.
  - now apply dict_set_new_app.
  - intros k0 Hk0. now apply dict_get_set_other.
  - unfold with_updated_at, with_count. cbn [version created_at updated_at count].
    now rewrite dict_len_set_new.
Qed.

Lemma add_entry_frame_witness :
  let w' := snd (add_entry (Some " GitLab.com ") "bob" "hunter2" one_world) in
  entries (w_store w')
    = entries one_store
      ++ [("gitlab.com", mkEntry "bob" "hunter2" "2025-09-04T14:00:00Z")]
  /\ (forall k0, k0 <> "gitlab.com" ->
        dict_get k0 (entries (w_store w')) = dict_get k0 (entries one_store))
  /\ metadata (w_store w')
     = mkMetadata 1 "2025-09-04T13:00:00Z" "2025-09-04T14:00:01Z" 2
  /\ w_clock w' = sample_clock
  /\ w_reads w' = 2%nat.
Proof.
  apply (add_entry_frame one_world _ " GitLab.com " "bob" "hunter2").
  reflexivity.
Defined.

(** X8. When [delete_entry] returns from a store with distinct keys, the
    items of [entries] are the old ones without the item of the key, in
    their order: [get_entry] no longer finds the site and every other key
    holds what it held; the count is the old length minus one, [updated_at]
    is the clock reading, and the clock has been read once. *)
Theorem delete_entry_frame (w w' : World) (site : string) :
  dict_wf (entries (w_store w)) ->
  delete_entry (Some site) w = (Done tt, w') ->
  let k := normalize_site site in
  entries (w_store w')
    = List.filter (fun item => negb (String.eqb k (fst item)))
                  (entries (w_store w))
  /\ get_entry (Some site) w' = (Done None, w')
  /\ (forall k0, k0 <> k ->
        dict_get k0 (entries (w_store w')) = dict_get k0 (entries (w_store w)))
  /\ metadata (w_store w')
     = mkMetadata (version (metadata (w_store w)))
                  (created_at (metadata (w_store w)))
                  (w_clock w (w_reads w))
                  (dict_len (entries (w_store w)) - 1)
  /\ w_clock w' = w_clock w
  /\ w_reads w' = S (w_reads w).
Proof.
  intros Hwf Hrun k. rewrite delete_entry_run in Hrun. cbv zeta in Hrun.
  fold k in Hrun.
  destruct (dict_in k (entries (w_store w))) eqn:E; [|discriminate].
  injection Hrun as <-. unfold get_entry, bind, get_entries, ret. fold k.
  unfold deleted. cbv zeta.
  cbn [w_store entries metadata w_clock w_reads]. repeat split.
  - now apply dict_del_filter.
  - now rewrite dict_get_del_same.
  - intros k0 Hk0. now apply dict_get_del_other.
  - unfold with_updated_at, with_count. cbn [version created_at updated_at count].
    now rewrite dict_len_del.
Qed.

Lemma delete_entry_frame_witness :
  let w' := snd (delete_entry (Some "GitHub.com") (mkWorld git_store sample_clock 0)) in
  entries (w_store w')
    = List.filter (fun item => negb (String.eqb "github.com" (fst item)))
                  (entries git_store)
  /\ get_entry (Some "GitHub.com") w' = (Done None, w')
  /\ (forall k0, k0 <> "github.com" ->
        dict_get k0 (entries (w_store w')) = dict_get k0 (entries git_store))
  /\ metadata (w_store w')
     = mkMetadata 1 "2025-09-04T13:00:00Z" "2025-09-04T14:00:00Z" 1
  /\ w_clock w' = sample_clock
  /\ w_reads w' = 1%nat.
Proof.
  apply (delete_entry_frame (mkWorld git_store sample_clock 0)
           (snd (delete_entry (Some "GitHub.com")
                   (mkWorld git_store sample_clock 0))) "GitHub.com").
  - unfold dict_wf. simpl. repeat constructor; simpl; intuition discriminate.
  - reflexivity.
Defined.

(** X9. Deleting a site that has just been added gives back the entries
    that were there before the addition, item for item, and with them the
    count. *)
Theorem add_then_delete (w w1 w2 : World) (site site' u p : string) :
  normalize_site site' = normalize_site site ->
  add_entry (Some site) u p w = (Done tt, w1) ->
  delete_entry (Some site') w1 = (Done tt, w2) ->
  entries (w_store w2) = entries (w_store w)
  /\ count (metadata (w_store w2)) = dict_len (entries (w_store w)).
Proof.
  intros Hn Hadd Hdel. rewrite add_entry_run in Hadd. cbv zeta in Hadd.
  destruct (negb (Str.truthy u) || negb (Str.truthy p)); [discriminate|].
  destruct (dict_in (normalize_site site) (entries (w_store w))) eqn:E;
    [discriminate|].
  injection Hadd as <-. rewrite delete_entry_run in Hdel. cbv zeta in Hdel.
  rewrite Hn in Hdel.
  destruct (dict_in (normalize_site site) (entries (w_store (added _ u p w))));
    [|discriminate].
  injection Hdel as <-. unfold deleted, added. cbv zeta.
  cbn [w_store entries metadata with_updated_at with_count count].
  now rewrite dict_del_set_new.
Qed.

Lemma add_then_delete_witness :
  let w1 := snd (add_entry (Some "GitLab.com") "bob" "hunter2" one_world) in
  let w2 := snd (delete_entry (Some " gitlab.COM") w1) in
  entries (w_store w2) = entries one_store
  /\ count (metadata (w_store w2)) = dict_len (entries one_store).
Proof.
  apply (add_then_delete one_world
           (snd (add_entry (Some "GitLab.com") "bob" "hunter2" one_world)) _
           "GitLab.com" " gitlab.COM" "bob" "hunter2");
    reflexivity.
Defined.

(* ================================================================== *)
(** ** Normalized keys *)

Lemma exec_op_keys_normalized o w :
  keys_normalized (w_store w) -> keys_normalized (w_store (snd (exec_op o w))).
Proof.
  unfold keys_normalized. intros H.
  destruct o as [site u p|site u p|site]; simpl exec_op.
  - destruct site as [site|]; [|exact H].
    rewrite add_entry_run. cbv zeta.
    destruct (negb (Str.truthy u) || negb (Str.truthy p)); [exact H|].
    destruct (dict_in (normalize_site site) (entries (w_store w))) eqn:E;
      [exact H|].
    cbn [snd added w_store entries]. rewrite dict_keys_set_new by exact E.
    apply Forall_app. split; [exact H|].
    constructor; [apply normalize_site_idem | constructor].
  - destruct site as [site|]; [|exact H].
    rewrite update_entry_run. cbv zeta.
    destruct u as [[|c u]|], p as [[|c' p]|]; try exact H;
      destruct (dict_in (normalize_site site) (entries (w_store w)));
      cbn [negb snd]; try exact H;
      rewrite ?stamped_keys, ?rewritten_keys; exact H.
  - destruct site as [site|]; [|exact H].
    rewrite delete_entry_run. cbv zeta.
    destruct (dict_in (normalize_site site) (entries (w_store w))); [|exact H].
    cbn [snd deleted w_store entries].
    apply Forall_forall. intros x Hx. apply dict_keys_del_incl in Hx.
    revert x Hx. now apply Forall_forall.
Qed.

(** X10. If every key of the store is normalized, so is every key after
    each call of any sequence of add, update and delete calls; and then
    [get_entry] with a key of the store as site returns the record under
    that key. *)
Theorem keys_normalized_invariant (ops : list op) (w : World) :
  keys_normalized (w_store w) ->
  Forall (fun w' =>
            keys_normalized (w_store w')
            /\ forall k e, dict_get k (entries (w_store w')) = Some e ->
                 get_entry (Some k) w' = (Done (Some e), w'))
         (trace ops w).
Proof.
  assert (Hget : forall w0, keys_normalized (w_store w0) ->
            forall k e, dict_get k (entries (w_store w0)) = Some e ->
              get_entry (Some k) w0 = (Done (Some e), w0)).
  { intros w0 H0 k e He. unfold get_entry, bind, get_entries, ret.
    assert (Hk : normalize_site k = k).
    { unfold keys_normalized in H0. rewrite Forall_forall in H0. apply H0.
      apply dict_in_keys. unfold dict_in. now rewrite He. }
    now rewrite Hk, He. }
  revert w. induction ops as [|o ops IH]; intros w H; simpl.
  - constructor.
  - pose proof (exec_op_keys_normalized o w H) as Hstep.
    destruct (exec_op o w) as [[[]|msg|key] w']; simpl in Hstep.
    + constructor; [split; [exact Hstep | now apply Hget] | now apply IH].
    + constructor; [split; [exact Hstep | now apply Hget] | constructor].
    + constructor; [split; [exact Hstep | now apply Hget] | constructor].
Qed.

Lemma keys_normalized_invariant_witness :
  Forall (fun w' =>
            keys_normalized (w_store w')
            /\ forall k e, dict_get k (entries (w_store w')) = Some e ->
                 get_entry (Some k) w' = (Done (Some e), w'))
         (trace [OpAdd (Some " GitLab.COM ") "bob" "hunter2";
                 OpUpdate (Some "GITHUB.com") None (Some "pw2");
                 OpDelete (Some "gitlab.com")] one_world).
Proof.
  apply (keys_normalized_invariant _ one_world).
  unfold keys_normalized. simpl. repeat constructor.
Defined.

(** X11. A key that [normalize_site] would change is the key of no site,
    and no call of add, update or delete changes what the store holds
    under it. *)
Theorem key_not_normalized_untouched (w : World) (k : string) (o : op) :
  normalize_site k <> k ->
  (forall site, normalize_site site <> k)
  /\ dict_get k (entries (w_store (snd (exec_op o w))))
     = dict_get k (entries (w_store w)).
Proof.
  intros Hk.
  assert (Hno : forall site, normalize_site site <> k).
  { intros site Hs. apply Hk. rewrite <- Hs. apply normalize_site_idem. }
  split; [exact Hno|].
  destruct o as [site u p|site u p|site]; simpl exec_op.
  - destruct site as [site|]; [|reflexivity].
    rewrite add_entry_run. cbv zeta.
    destruct (negb (Str.truthy u) || negb (Str.truthy p)); [reflexivity|].
    destruct (dict_in (normalize_site site) (entries (w_store w)));
      [reflexivity|].
    cbn [snd added w_store entries]. apply dict_get_set_other.
    intros E. now apply (Hno site).
  - destruct site as [site|]; [|reflexivity].
    assert (Hne : k <> normalize_site site)
      by (intros E; now apply (Hno site)).
    rewrite update_entry_run. cbv zeta.
    destruct u as [[|c u]|], p as [[|c' p]|]; try reflexivity;
      destruct (dict_in (normalize_site site) (entries (w_store w)));
      cbn [negb snd]; try reflexivity;
      rewrite ?(stamped_get_other _ _ _ Hne), ?(rewritten_get_other _ _ _ _ Hne);
      reflexivity.
  - destruct site as [site|]; [|reflexivity].
    rewrite delete_entry_run. cbv zeta.
    destruct (dict_in (normalize_site site) (entries (w_store w)));
      [|reflexivity].
    cbn [snd deleted w_store entries]. apply dict_get_del_other.
    intros E. now apply (Hno site).
Qed.

Lemma key_not_normalized_untouched_witness :
  (forall site, normalize_site site <> "GitHub.com")
  /\ dict_get "GitHub.com"
       (entries (w_store (snd (exec_op (OpDelete (Some "GitHub.com")) one_world))))
     = dict_get "GitHub.com" (entries (w_store one_world)).
Proof.
  apply (key_not_normalized_untouched one_world "GitHub.com"
           (OpDelete (Some "GitHub.com"))).
  discriminate.
Defined.

(* ================================================================== *)
(** ** Time stamps of the store *)

Lemma rewritten_In k f w k0 e0 :
  In (k0, e0) (entries (w_store (rewritten k f w))) ->
  In (k0, e0) (entries (w_store w))
  \/ exists e, In (k0, e) (entries (w_store w)) /\ e0 = f e.
Proof.
  unfold rewritten. cbv zeta.
  destruct (dict_get k (entries (w_store w))) as [e|] eqn:E; [|now left].
  cbn [set_store w_store entries]. intros Hin.
  apply dict_set_In in Hin. destruct Hin as [[= -> ->]|Hin]; [|now left].
  right. exists e. split; [now apply dict_get_In | reflexivity].
Qed.

Lemma stamped_by_weaken t t' w :
  String.leb t t' = true -> stamped_by t w -> stamped_by t' w.
Proof.
  intros Ht H k e Hin. eapply string_leb_trans; [now apply (H k e) | exact Ht].
Qed.

Lemma stamped_by_rewritten t k f w :
  (forall e, last_updated (f e) = last_updated e) ->
  stamped_by t w -> stamped_by t (rewritten k f w).
Proof.
  intros Hf H k0 e0 Hin. apply rewritten_In in Hin.
  destruct Hin as [Hin|[e [Hin ->]]]; [now apply (H k0) |].
  rewrite Hf. now apply (H k0).
Qed.

Lemma stamps_ok_stamped k w :
  clock_monotone w ->
  stamped_by (w_clock w (w_reads w)) w ->
  stamps_ok (stamped k w).
Proof.
  intros Hmono H. unfold stamps_ok. rewrite stamped_metadata.
  cbn [updated_at with_updated_at]. rewrite stamped_clock, stamped_reads.
  split; [|apply Hmono; lia].
  intros k0 e0 Hin. unfold stamped in Hin. cbv zeta in Hin.
  cbn [w_store entries] in Hin. apply rewritten_In in Hin.
  destruct Hin as [Hin|[e [Hin ->]]].
  - eapply string_leb_trans; [now apply (H k0) | apply Hmono; lia].
  - cbn [with_last_updated last_updated]. apply Hmono. lia.
Qed.

Lemma clock_monotone_rewritten k f w :
  clock_monotone w -> clock_monotone (rewritten k f w).
Proof. unfold clock_monotone. now rewrite rewritten_clock. Qed.

(** Whatever its outcome, a call of the engine keeps the clock and, when
    the clock never runs backwards, the order of the stamps. *)
Lemma exec_op_stamps_ok o w :
  clock_monotone w -> stamps_ok w ->
  stamps_ok (snd (exec_op o w)) /\ w_clock (snd (exec_op o w)) = w_clock w.
Proof.
  intros Hmono [Hrec Hdoc].
  assert (Hby : stamped_by (w_clock w (w_reads w)) w).
  { intros k e Hin. eapply string_leb_trans; [now apply (Hrec k) | exact Hdoc]. }
  assert (Hsame : stamps_ok w /\ w_clock w = w_clock w)
    by (split; [split; assumption | reflexivity]).
  destruct o as [site u p|site u p|site]; simpl exec_op.
  - destruct site as [site|]; [|exact Hsame].
    rewrite add_entry_run. cbv zeta.
    destruct (negb (Str.truthy u) || negb (Str.truthy p)); [exact Hsame|].
    destruct (dict_in (normalize_site site) (entries (w_store w)));
      [exact Hsame|].
    cbn [snd]. split; [|reflexivity]. unfold stamps_ok, added. cbv zeta.
    cbn [w_store entries metadata w_clock w_reads with_updated_at updated_at].
    split; [|apply Hmono; lia].
    intros k e Hin. apply dict_set_In in Hin. destruct Hin as [[= -> ->]|Hin].
    + cbn [last_updated]. apply Hmono. lia.
    + eapply string_leb_trans; [now apply (Hby k) | apply Hmono; lia].
  - destruct site as [site|]; [|exact Hsame].
    rewrite update_entry_run. cbv zeta.
    destruct u as [[|c u]|], p as [[|c' p]|]; try exact Hsame;
      destruct (dict_in (normalize_site site) (entries (w_store w)));
      cbn [negb snd]; try exact Hsame.
    + split; [|apply rewritten_clock]. unfold stamps_ok.
      rewrite rewritten_metadata, rewritten_clock, rewritten_reads.
      split; [|exact Hdoc].
      apply (stamped_by_rewritten _ _ _ w); [reflexivity | exact Hrec].
    + split; [|now rewrite stamped_clock, !rewritten_clock].
      apply stamps_ok_stamped; [now repeat apply clock_monotone_rewritten|].
      rewrite !rewritten_clock, !rewritten_reads.
      repeat (apply stamped_by_rewritten; [reflexivity|]). exact Hby.
    + split; [|now rewrite stamped_clock, !rewritten_clock].
      apply stamps_ok_stamped; [now repeat apply clock_monotone_rewritten|].
      rewrite !rewritten_clock, !rewritten_reads.
      repeat (apply stamped_by_rewritten; [reflexivity|]). exact Hby.
    + split; [|now rewrite stamped_clock, !rewritten_clock].
      apply stamps_ok_stamped; [now repeat apply clock_monotone_rewritten|].
      rewrite !rewritten_clock, !rewritten_reads.
      repeat (apply stamped_by_rewritten; [reflexivity|]). exact Hby.
  - destruct site as [site|]; [|exact Hsame].
    rewrite delete_entry_run. cbv zeta.
    destruct (dict_in (normalize_site site) (entries (w_store w)));
      [|exact Hsame].
    cbn [snd]. split; [|reflexivity]. unfold stamps_ok, deleted. cbv zeta.
    cbn [w_store entries metadata w_clock w_reads with_updated_at updated_at].
    split; [|apply Hmono; lia].
    intros k e Hin. apply dict_del_In in Hin. now apply (Hby k).
Qed.

(** X12. With a clock that never runs backwards, if no record is stamped
    later than [metadata.updated_at] and [updated_at] is not later than the
    next reading, the same holds after each call of any sequence of add,
    update and delete calls. *)
Theorem stamps_invariant (ops : list op) (w : World) :
  clock_monotone w -> stamps_ok w ->
  Forall stamps_ok (trace ops w).
Proof.
  revert w. induction ops as [|o ops IH]; intros w Hmono H; simpl.
  - constructor.
  - destruct (exec_op_stamps_ok o w Hmono H) as [Hstep Hclock].
    destruct (exec_op o w) as [[[]|msg|key] w']; simpl in Hstep, Hclock.
    + constructor; [exact Hstep|]. apply IH; [|exact Hstep].
      unfold clock_monotone. rewrite Hclock. exact Hmono.
    + now constructor.
    + now constructor.
Qed.

Lemma stamps_invariant_witness :
  Forall stamps_ok
    (trace [OpAdd (Some "GitLab.com") "bob" "hunter2";
            OpUpdate (Some "github.com") (Some "carol") None;
            OpDelete (Some "gitlab.com")] one_world).
Proof.
  apply (stamps_invariant _ one_world).
  - intros m n Hmn. destruct m as [|[|m]], n as [|[|n]];
      try reflexivity; lia.
  - split; [|reflexivity].
    intros k e [[= <- <-]|[]]. reflexivity.
Defined.

(** A world whose clock reads instants that never go back has a clock whose
    readings never go back in the order of strings. *)
Lemma world_at_clock_monotone (s : Store) (utc : nat -> datetime) :
  (forall n, datetime_ok (utc n)) ->
  (forall m n, (m <= n)%nat -> datetime_compare (utc m) (utc n) <> Gt) ->
  clock_monotone (world_at s utc).
Proof.
  intros Hok Hup m n Hmn. unfold world_at. cbn [w_clock].
  unfold String.leb.
  rewrite (iso_compare _ _ (Hok m) (Hok n)).
  specialize (Hup m n Hmn). now destruct (datetime_compare (utc m) (utc n)).
Qed.

(* ================================================================== *)
(** ** Listing: order, coverage and stability *)

Section SortMore.
Context {A : Type} (key : A -> string).

Lemma key_le_trans x y z : key_le key x y -> key_le key y z -> key_le key x z.
Proof. unfold key_le. apply string_leb_trans. Qed.

Lemma sort_by_strongly_sorted l : StronglySorted (key_le key) (sort_by key l).
Proof.
  apply Sorted_StronglySorted; [|apply sort_by_sorted].
  intros x y z. apply key_le_trans.
Qed.

(** Items with one and the same key keep their order. *)
Lemma insert_by_filter t x l :
  List.filter (fun y => String.eqb (key y) t) (insert_by key x l)
  = List.filter (fun y => String.eqb (key y) t) (x :: l).
Proof.
  induction l as [|y l IH]; [reflexivity|].
  cbn [insert_by]. destruct (String.leb (key x) (key y)) eqn:E; [reflexivity|].
  cbn [List.filter] in *. rewrite IH.
  destruct (String.eqb_spec (key x) t) as [Hx|Hx];
    destruct (String.eqb_spec (key y) t) as [Hy|Hy]; try reflexivity.
  rewrite Hx, Hy, string_leb_refl in E. discriminate.
Qed.

Lemma sort_by_filter t l :
  List.filter (fun y => String.eqb (key y) t) (sort_by key l)
  = List.filter (fun y => String.eqb (key y) t) l.
Proof.
  induction l as [|x l IH]; [reflexivity|].
  cbn [sort_by fold_right]. fold (sort_by key l).
  rewrite insert_by_filter. cbn [List.filter]. now rewrite IH.
Qed.

(** Two sorted arrangements of items with distinct keys are the same
    list. *)
Lemma sorted_unique l1 l2 :
  StronglySorted (key_le key) l1 -> StronglySorted (key_le key) l2 ->
  Permutation l1 l2 -> NoDup (List.map key l1) -> l1 = l2.
Proof.
  revert l2. induction l1 as [|x l1 IH]; intros l2 S1 S2 HP HN.
  - apply Permutation_nil in HP. now subst.
  - destruct l2 as [|y l2];
      [apply Permutation_sym, Permutation_nil in HP; discriminate|].
    inversion S1 as [|? ? S1' F1]; subst. inversion S2 as [|? ? S2' F2]; subst.
    rewrite Forall_forall in F1, F2.
    assert (Hxy : x = y).
    { assert (Hy : In y (x :: l1))
        by (apply (Permutation_in _ (Permutation_sym HP)); now left).
      assert (Hx : In x (y :: l2))
        by (apply (Permutation_in _ HP); now left).
      destruct Hy as [Hy|Hy]; [exact Hy|].
      destruct Hx as [Hx|Hx]; [now symmetry|].
      assert (Hk : key x = key y)
        by (apply String.leb_antisym; [now apply F1 | now apply F2]).
      exfalso. cbn [List.map] in HN. inversion HN as [|? ? Hnot _]; subst.
      apply Hnot. rewrite Hk. now apply in_map. }
    subst y. f_equal. apply IH; try assumption.
    + now apply Permutation_cons_inv in HP.
    + cbn [List.map] in HN. now inversion HN.
Qed.

Lemma sort_by_perm_eq l1 l2 :
  Permutation l1 l2 -> NoDup (List.map key l1) ->
  sort_by key l1 = sort_by key l2.
Proof.
  intros HP HN. apply sorted_unique; try apply sort_by_strongly_sorted.
  - rewrite <- (sort_by_perm key l1), <- (sort_by_perm key l2). exact HP.
  - apply (Permutation_NoDup (l := List.map key l1)); [|exact HN].
    apply Permutation_map. apply sort_by_perm.
Qed.

(** The first item of a sorted list is a least one, the last a greatest
    one. *)
Lemma strongly_sorted_hd x l y :
  StronglySorted (key_le key) (x :: l) -> In y (x :: l) -> key_le key x y.
Proof.
  intros S [<-|Hy]; [apply string_leb_refl|].
  inversion S as [|? ? _ F]; subst. rewrite Forall_forall in F. now apply F.
Qed.

Lemma strongly_sorted_last l x y :
  StronglySorted (key_le key) (l ++ [x]) -> In y (l ++ [x]) -> key_le key y x.
Proof.
  induction l as [|z l IH]; cbn [app]; intros S Hy.
  - destruct Hy as [<-|[]]. apply string_leb_refl.
  - inversion S as [|? ? S' F]; subst. destruct Hy as [<-|Hy].
    + rewrite Forall_forall in F. apply F. apply in_or_app. right. now left.
    + now apply IH.
Qed.

End SortMore.

Lemma list_entries_sort_by (s : Store) (sort_key : string) :
  list_entries s sort_key = sort_by (row_key sort_key) (rows_of s).
Proof.
  unfold list_entries, row_key, rows_of. cbv zeta.
  destruct (String.eqb sort_key "last_updated"); reflexivity.
Qed.

(** X13. [list_entries] returns the rows of all entries, each as often as
    it occurs, arranged so that every row is at most every later row in the
    component chosen by [sort_key]: [last_updated] for the key
    ["last_updated"], the site for every other key. *)
Theorem list_entries_sorted (s : Store) (sort_key : string) :
  Permutation (rows_of s) (list_entries s sort_key)
  /\ StronglySorted
       (fun a b => String.leb (row_key sort_key a) (row_key sort_key b) = true)
       (list_entries s sort_key)
  /\ Datatypes.length (list_entries s sort_key)
     = Datatypes.length (entries s).
Proof.
  rewrite list_entries_sort_by. split; [apply sort_by_perm|]. split.
  - apply (sort_by_strongly_sorted (row_key sort_key)).
  - rewrite <- (Permutation_length (sort_by_perm _ _)).
    unfold rows_of. apply length_map.
Qed.

(** X14. [list_entries] is stable: the rows that share one value of the
    component chosen by [sort_key] come in the order of insertion of their
    entries. *)
Theorem list_entries_stable (s : Store) (sort_key t : string) :
  List.filter (fun row => String.eqb (row_key sort_key row) t)
              (list_entries s sort_key)
  = List.filter (fun row => String.eqb (row_key sort_key row) t) (rows_of s).
Proof. rewrite list_entries_sort_by. apply sort_by_filter. Qed.

Lemma rows_of_sites (s : Store) :
  List.map (fun row : string * string * string => fst (fst row)) (rows_of s)
  = dict_keys (entries s).
Proof.
  unfold rows_of, dict_keys. rewrite map_map. reflexivity.
Qed.

(** X15. With a [sort_key] other than ["last_updated"], the list that
    [list_entries] returns does not depend on the order of insertion: two
    stores whose entries are the same items in different orders give the
    same list. *)
Theorem list_entries_by_site_order_free (s1 s2 : Store) (sort_key : string) :
  sort_key <> "last_updated" ->
  dict_wf (entries s1) ->
  Permutation (entries s1) (entries s2) ->
  list_entries s1 sort_key = list_entries s2 sort_key.
Proof.
  intros Hk Hwf HP. rewrite !list_entries_sort_by.
  apply sort_by_perm_eq.
  - unfold rows_of. now apply Permutation_map.
  - unfold row_key. apply String.eqb_neq in Hk. rewrite Hk.
    rewrite rows_of_sites. exact Hwf.
Qed.

Lemma list_entries_by_site_order_free_witness :
  list_entries git_store "site"
  = list_entries (mkStore (metadata git_store) (List.rev (entries git_store)))
                 "site".
Proof.
  apply (list_entries_by_site_order_free git_store
           (mkStore (metadata git_store) (List.rev (entries git_store))) "site").
  - discriminate.
  - unfold dict_wf. simpl. repeat constructor; simpl; intuition discriminate.
  - apply Permutation_rev.
Defined.

(* ================================================================== *)
(** ** Search and statistics against the order of insertion *)

Lemma Permutation_filter_keep {A} (f : A -> bool) (l l' : list A) :
  Permutation l l' -> Permutation (List.filter f l) (List.filter f l').
Proof.
  induction 1 as [|x l l' _ IH|x y l|l l' l'' _ IH1 _ IH2]; simpl.
  - constructor.
  - destruct (f x); [now constructor | exact IH].
  - destruct (f x), (f y); try reflexivity. apply perm_swap.
  - now transitivity (List.filter f l').
Qed.

(** X16. What [search_entries] returns does not depend on the order of
    insertion: two stores whose entries are the same items in different
    orders give the same list for every keyword. *)
Theorem search_entries_order_free (s1 s2 : Store) (keyword : option string) :
  dict_wf (entries s1) ->
  Permutation (entries s1) (entries s2) ->
  search_entries s1 keyword = search_entries s2 keyword.
Proof.
  intros Hwf HP. destruct keyword as [kw|]; [|reflexivity].
  unfold search_entries. destruct (negb (Str.truthy kw)); [reflexivity|].
  cbv zeta. rewrite !search_loop_filter. cbn [app].
  apply sort_by_perm_eq.
  - apply Permutation_map. now apply Permutation_filter_keep.
  - rewrite map_id. now apply NoDup_keys_filter.
Qed.

Lemma search_entries_order_free_witness :
  search_entries git_store (Some "git")
  = search_entries (mkStore (metadata git_store) (List.rev (entries git_store)))
                   (Some "git").
Proof.
  apply (search_entries_order_free git_store
           (mkStore (metadata git_store) (List.rev (entries git_store)))
           (Some "git")).
  - unfold dict_wf. simpl. repeat constructor; simpl; intuition discriminate.
  - apply Permutation_rev.
Defined.

Lemma is_least_unique t t' l : is_least t l -> is_least t' l -> t = t'.
Proof.
  intros [Hin H] [Hin' H']. apply String.leb_antisym; auto.
Qed.

Lemma is_greatest_unique t t' l :
  is_greatest t l -> is_greatest t' l -> t = t'.
Proof.
  intros [Hin H] [Hin' H']. apply String.leb_antisym; auto.
Qed.

Lemma times_of_rows (s : Store) :
  times_of s = List.map (fun row : string * string * string => snd row) (rows_of s).
Proof. unfold times_of, rows_of. now rewrite map_map. Qed.

Lemma hd_rev_last {A} (l : list A) (x : A) : last_error (l ++ [x]) = Some x.
Proof. unfold last_error. now rewrite rev_app_distr. Qed.

(** X17. The oldest stamp that [stats] reports is the stamp of the first
    row of [list_entries] sorted by ["last_updated"], and the newest is the
    stamp of its last row; on the empty store there is neither. *)
Theorem stats_matches_listing (s : Store) :
  let rows := list_entries s "last_updated" in
  st_oldest (stats s) = option_map snd (hd_error rows)
  /\ st_newest (stats s) = option_map snd (last_error rows).
Proof.
  cbv zeta. rewrite list_entries_sort_by.
  set (key := row_key "last_updated").
  assert (Hkey : forall row, key row = snd row) by reflexivity.
  pose proof (sort_by_perm key (rows_of s)) as HP.
  pose proof (sort_by_strongly_sorted key (rows_of s)) as HS.
  destruct (entries s) as [|[k e] es] eqn:E.
  - unfold stats, rows_of. rewrite E. split; reflexivity.
  - assert (Hin : forall t, In t (times_of s) <->
                    exists row, In row (sort_by key (rows_of s)) /\ snd row = t).
    { intros t. rewrite times_of_rows, in_map_iff. split; intros [row [H1 H2]].
      - exists row. split; [|exact H1]. now apply (Permutation_in _ HP).
      - exists row. split; [exact H2|].
        now apply (Permutation_in _ (Permutation_sym HP)). }
    assert (Hst : exists t t', st_oldest (stats s) = Some t
                    /\ is_least t (times_of s)
                    /\ st_newest (stats s) = Some t'
                    /\ is_greatest t' (times_of s)).
    { unfold stats, times_of. cbv zeta. rewrite E.
      replace (dict_len ((k, e) :: es) =? 0)%Z with false
        by (unfold dict_len; symmetry; apply Z.eqb_neq;
            simpl Datatypes.length; lia).
      cbn [st_oldest st_newest].
      destruct (py_min_least (last_updated e)
                  (List.map (fun item => last_updated (snd item)) es))
        as [t [Ht Hl]].
      destruct (py_max_greatest (last_updated e)
                  (List.map (fun item => last_updated (snd item)) es))
        as [t' [Ht' Hg]].
      exists t, t'. auto. }
    destruct Hst as [t [t' [Ho [Hl [Hn Hg]]]]]. rewrite Ho, Hn.
    destruct (sort_by key (rows_of s)) as [|r0 rest] eqn:Es.
    { apply Permutation_sym, Permutation_nil in HP.
      unfold rows_of in HP. rewrite E in HP. discriminate. }
    split.
    + cbn [hd_error option_map]. f_equal.
      apply (is_least_unique _ _ (times_of s) Hl). split.
      * apply Hin. exists r0. split; [now left | reflexivity].
      * intros x Hx. apply Hin in Hx. destruct Hx as [row [Hrow <-]].
        rewrite <- !Hkey. now apply (strongly_sorted_hd key r0 rest).
    + destruct (exists_last (l := r0 :: rest) ltac:(discriminate))
        as [front [rl Hfl]].
      rewrite Hfl in *. rewrite hd_rev_last. cbn [option_map]. f_equal.
      apply (is_greatest_unique _ _ (times_of s) Hg). split.
      * apply Hin. exists rl. split; [|reflexivity].
        apply in_or_app. right. now left.
      * intros x Hx. apply Hin in Hx. destruct Hx as [row [Hrow <-]].
        rewrite <- !Hkey. now apply (strongly_sorted_last key front rl).
Qed.

(* ================================================================== *)
(** ** Files: export, init, load and save *)

Lemma export_loop_spec items rows n :
  export_loop items rows n
  = (rows ++ List.map export_row items, (n + dict_len items)%Z).
Proof.
  revert rows n. induction items as [|[site rec] items IH]; intros rows n.
  - cbn [export_loop List.map]. rewrite app_nil_r. f_equal.
    unfold dict_len. simpl. lia.
  - cbn [export_loop List.map]. rewrite IH, <- app_assoc. f_equal.
    unfold dict_len. cbn [Datatypes.length]. lia.
Qed.

Lemma export_csv_run out m :
  export_csv out m
  = (Done (dict_len (entries (w_store (m_world m)))),
     mkMachine (m_world m)
       (dict_set out
          (CsvFile (export_header
                    :: List.map export_row (entries (w_store (m_world m)))))
          (m_disk m))
       (m_stdout m)).
Proof.
  unfold export_csv, run_bind, get_store. cbv zeta.
  rewrite export_loop_spec. reflexivity.
Qed.

(** X18. [export_csv] returns the number of entries and leaves at
    [out_path] the header row followed by one row per entry, in the order
    of insertion; the store, the other files and the output are as they
    were. *)
Theorem export_csv_writes (out : string) (m : Machine) :
  let r := export_csv out m in
  let es := entries (w_store (m_world m)) in
  fst r = Done (Z.of_nat (Datatypes.length es))
  /\ dict_get out (m_disk (snd r))
     = Some (CsvFile (export_header :: List.map export_row es))
  /\ (forall path, path <> out ->
        dict_get path (m_disk (snd r)) = dict_get path (m_disk m))
  /\ m_world (snd r) = m_world m
  /\ m_stdout (snd r) = m_stdout m.
Proof.
  cbv zeta. rewrite export_csv_run. cbn [fst snd m_world m_disk m_stdout].
  repeat split.
  - apply dict_get_set_same.
  - intros path Hp. now apply dict_get_set_other.
Qed.

Lemma main_load_run file m :
  main_load file m
  = match dict_get file (m_disk m) with
    | None => (SysExit "Store file not found. Run 'init' first.", m)
    | Some (JsonFile v) =>
        match validate_store_schema v with
        | Done _ => (Done v, m)
        | SysExit msg => (SysExit msg, m)
        | KeyError key => (KeyError key, m)
        end
    | Some _ => (SysExit "Store file is corrupted. Restore or re-init.", m)
    end.
Proof.
  unfold main_load, run_bind, load_store, lift_outcome, run_ret.
  destruct (dict_get file (m_disk m)) as [[v|rows|]|]; reflexivity.
Qed.

(** X19. The first two steps of [main] return the document exactly when
    the file exists, holds a JSON document and the document has the shape
    that the validator checks; they never change the machine. *)
Theorem main_load_outcome (file : string) (m : Machine) (v : pyval) :
  (fst (main_load file m) = Done v <->
   dict_get file (m_disk m) = Some (JsonFile v) /\ schema_ok v)
  /\ snd (main_load file m) = m.
Proof.
  rewrite main_load_run.
  destruct (dict_get file (m_disk m)) as [[v'|rows|]|] eqn:E;
    try (split; [split; [discriminate | intros [H _]; discriminate]
                | reflexivity]).
  destruct (validate_store_schema v') as [[]|msg|key] eqn:Ev; cbn [fst snd];
    (split; [|reflexivity]).
  - apply validate_store_schema_iff in Ev. split.
    + intros [= <-]. auto.
    + intros [[= <-] _]. reflexivity.
  - split; [discriminate|]. intros [[= <-] Hok].
    apply validate_store_schema_iff in Hok. congruence.
  - split; [discriminate|]. intros [[= <-] Hok].
    apply validate_store_schema_iff in Hok. congruence.
Qed.

Lemma init_store_run path m :
  init_store path m
  = let w := m_world m in
    let store := mkStore (mkMetadata 1 (w_clock w (w_reads w))
                                     (w_clock w (S (w_reads w))) 0) [] in
    (Done store,
     mkMachine (mkWorld (w_store w) (w_clock w) (S (S (w_reads w))))
       (dict_set path (JsonFile (pyval_of_store store)) (m_disk m))
       (m_stdout m ++ [[PrStr "Created new password store at"; PrStr path]])).
Proof. reflexivity. Qed.

(** X20. [init_store] writes, over whatever the path held, the document of
    a store without entries, with count 0, version 1 and the two clock
    readings as [created_at] and [updated_at], and returns that store; the
    first two steps of [main] then load and accept the document, and every
    other file is as it was. *)
Theorem init_store_writes_valid (path : string) (m : Machine) :
  let r := init_store path m in
  let w := m_world m in
  let store := mkStore (mkMetadata 1 (w_clock w (w_reads w))
                                   (w_clock w (S (w_reads w))) 0) [] in
  fst r = Done store
  /\ dict_get path (m_disk (snd r)) = Some (JsonFile (pyval_of_store store))
  /\ (forall p, p <> path ->
        dict_get p (m_disk (snd r)) = dict_get p (m_disk m))
  /\ main_load path (snd r) = (Done (pyval_of_store store), snd r).
Proof.
  cbv zeta. rewrite init_store_run. cbv zeta. cbn [fst snd m_disk].
  split; [reflexivity|]. split; [apply dict_get_set_same|].
  split; [intros p Hp; now apply dict_get_set_other|].
  rewrite main_load_run. cbn [m_disk]. rewrite dict_get_set_same.
  reflexivity.
Qed.

Lemma save_store_run path m :
  save_store path m
  = (Done tt,
     mkMachine (touched (m_world m))
       (dict_set path (JsonFile (pyval_of_store (w_store (touched (m_world m)))))
                 (m_disk m))
       (m_stdout m)).
Proof. reflexivity. Qed.

Lemma touched_count_ok w : count_ok (w_store w) -> count_ok (w_store (touched w)).
Proof. exact id. Qed.

(* ================================================================== *)
(** ** The commands of [main] *)

Lemma for_each_print {A} (g : A -> list printed) (l : list A) (m : Machine) :
  for_each l (fun x => print (g x)) m
  = (Done tt, mkMachine (m_world m) (m_disk m) (m_stdout m ++ List.map g l)).
Proof.
  revert m. induction l as [|x l IH]; intros m.
  - cbn [for_each List.map]. rewrite app_nil_r. now destruct m.
  - cbn [for_each List.map]. unfold run_bind at 1, print at 1.
    rewrite IH. cbn [m_world m_disk m_stdout]. now rewrite <- app_assoc.
Qed.

Lemma exec_op_returns_or_exits o w :
  fst (exec_op o w) = Done tt \/ exited (exec_op o w).
Proof.
  assert (Hex : forall (msg : string) (w0 : World),
            fst (@SysExit unit msg, w0) = Done tt \/ exited (@SysExit unit msg, w0))
    by (intros msg w0; right; now exists msg).
  destruct o as [site u p|site u p|site]; simpl exec_op.
  - destruct site as [site|]; [|apply Hex].
    rewrite add_entry_run. cbv zeta.
    destruct (negb (Str.truthy u) || negb (Str.truthy p)); [apply Hex|].
    destruct (dict_in (normalize_site site) (entries (w_store w)));
      [apply Hex | now left].
  - destruct site as [site|]; [|apply Hex].
    rewrite update_entry_run. cbv zeta.
    destruct u as [[|c u]|], p as [[|c' p]|]; try apply Hex;
      destruct (dict_in (normalize_site site) (entries (w_store w)));
      cbn [negb]; try apply Hex; now left.
  - destruct site as [site|]; [|apply Hex].
    rewrite delete_entry_run. cbv zeta.
    destruct (dict_in (normalize_site site) (entries (w_store w)));
      [now left | apply Hex].
Qed.

(** A mutating command in closed form: the call of the engine, then the
    save and the confirmation when the call has returned. *)
Lemma main_dispatch_mutating_run file c o m :
  op_of c = Some o ->
  main_dispatch file c m
  = match exec_op o (m_world m) with
    | (Done _, w1) =>
        (Done tt,
         mkMachine (touched w1)
           (dict_set file (JsonFile (pyval_of_store (w_store (touched w1))))
                     (m_disk m))
           (m_stdout m ++ [confirmation c]))
    | (SysExit msg, w1) => (SysExit msg, mkMachine w1 (m_disk m) (m_stdout m))
    | (KeyError key, w1) => (KeyError key, mkMachine w1 (m_disk m) (m_stdout m))
    end.
Proof.
  intros Ho.
  destruct c as [site u p|site|site u p|site|sort|kw|out|]; try discriminate;
    injection Ho as <-; cbn [main_dispatch exec_op confirmation];
    unfold run_bind at 1, lift at 1;
    match goal with
    | |- context [?cmd (m_world m)] =>
        destruct (cmd (m_world m)) as [[[]|msg|key] w1]
    end; reflexivity.
Qed.

(** A read-only command in closed form: it returns, and only the output
    grows. *)
Lemma main_dispatch_read_only_run file c m :
  read_only c = true ->
  exists lines,
    main_dispatch file c m
    = (Done tt, mkMachine (m_world m) (m_disk m) (m_stdout m ++ lines)).
Proof.
  intros Hro.
  destruct c as [site u p|site|site u p|site|sort|kw|out|]; try discriminate;
    cbn [main_dispatch].
  - unfold run_bind at 1, lift, get_entry, bind, get_entries, ret.
    destruct (dict_get (normalize_site site) (entries (w_store (m_world m)))).
    + eexists. unfold run_bind, print. cbn [m_world m_disk m_stdout].
      rewrite <- !app_assoc. reflexivity.
    + eexists. reflexivity.
  - unfold run_bind at 1, get_store. cbv zeta.
    destruct (list_entries (w_store (m_world m)) sort) as [|row rows].
    + eexists. reflexivity.
    + unfold run_bind, print at 1. rewrite for_each_print.
      cbn [m_world m_disk m_stdout]. rewrite <- app_assoc.
      eexists. reflexivity.
  - unfold run_bind at 1, get_store. cbv zeta.
    destruct (search_entries (w_store (m_world m)) (Some kw)) as [|hit hits].
    + eexists. reflexivity.
    + rewrite for_each_print. eexists. reflexivity.
  - unfold run_bind, get_store, print. cbv zeta. cbn [m_world m_disk m_stdout].
    rewrite <- !app_assoc. eexists. reflexivity.
Qed.

Lemma main_dispatch_export_run file out m :
  main_dispatch file (CmdExport out) m
  = (Done tt,
     mkMachine (m_world m)
       (dict_set out
          (CsvFile (export_header
                    :: List.map export_row (entries (w_store (m_world m)))))
          (m_disk m))
       (m_stdout m
        ++ [[PrStr ("Exported "
                    ++ str_of_int (dict_len (entries (w_store (m_world m))))
                    ++ " entries to " ++ out)]])).
Proof.
  cbn [main_dispatch]. unfold run_bind. rewrite export_csv_run. reflexivity.
Qed.

(** X21. A command that does not return has written no file and printed
    nothing: whenever [main] leaves through [sys.exit] after the store is
    loaded, the files and the output are as they were. *)
Theorem main_dispatch_exit_writes_nothing (file : string) (c : command)
  (m : Machine) :
  let r := main_dispatch file c m in
  fst r = Done tt
  \/ (run_exited r
      /\ m_disk (snd r) = m_disk m
      /\ m_stdout (snd r) = m_stdout m).
Proof.
  cbv zeta. destruct (op_of c) as [o|] eqn:Ho.
  - rewrite (main_dispatch_mutating_run _ _ _ _ Ho).
    destruct (exec_op_returns_or_exits o (m_world m)) as [H|[msg H]];
      destruct (exec_op o (m_world m)) as [[[]|msg'|key] w1];
      try discriminate; cbn [fst snd m_disk m_stdout].
    + now left.
    + right. split; [now exists msg'|]. split; reflexivity.
  - destruct c as [site u p|site|site u p|site|sort|kw|out|];
      try discriminate.
    + destruct (main_dispatch_read_only_run file (CmdGet site) m eq_refl)
        as [lines ->]. now left.
    + destruct (main_dispatch_read_only_run file (CmdList sort) m eq_refl)
        as [lines ->]. now left.
    + destruct (main_dispatch_read_only_run file (CmdSearch kw) m eq_refl)
        as [lines ->]. now left.
    + rewrite main_dispatch_export_run. now left.
    + destruct (main_dispatch_read_only_run file CmdStats m eq_refl)
        as [lines ->]. now left.
Qed.

(** X22. The commands get, list, search and stats always return, and leave
    the store, the clock and every file as they were. *)
Theorem main_dispatch_read_only (file : string) (c : command) (m : Machine) :
  read_only c = true ->
  let r := main_dispatch file c m in
  fst r = Done tt
  /\ m_world (snd r) = m_world m
  /\ m_disk (snd r) = m_disk m.
Proof.
  intros Hro. cbv zeta.
  destruct (main_dispatch_read_only_run file c m Hro) as [lines ->].
  repeat split.
Qed.

(** X23. When add, update or delete returns on a store whose count matches,
    the file of the store holds the document of the store as the call of
    the engine and the save have left it, no other file has changed, the
    count of that store matches, and the first two steps of the next run of
    [main] load and accept the document. *)
Theorem main_dispatch_saves_valid (file : string) (c : command)
  (m m' : Machine) :
  mutating c = true ->
  count_ok (w_store (m_world m)) ->
  main_dispatch file c m = (Done tt, m') ->
  let doc := pyval_of_store (w_store (m_world m')) in
  (exists o w1, op_of c = Some o
     /\ exec_op o (m_world m) = (Done tt, w1) /\ m_world m' = touched w1)
  /\ dict_get file (m_disk m') = Some (JsonFile doc)
  /\ (forall p, p <> file -> dict_get p (m_disk m') = dict_get p (m_disk m))
  /\ count_ok (w_store (m_world m'))
  /\ main_load file m' = (Done doc, m').
Proof.
  intros Hmut Hc Hrun. cbv zeta.
  assert (Ho : exists o, op_of c = Some o)
    by (destruct c; try discriminate; eexists; reflexivity).
  destruct Ho as [o Ho].
  rewrite (main_dispatch_mutating_run _ _ _ _ Ho) in Hrun.
  pose proof (exec_op_count_ok o (m_world m) Hc) as Hc1.
  destruct (exec_op o (m_world m)) as [[[]|msg|key] w1] eqn:E;
    try discriminate.
  injection Hrun as <-. cbn [snd] in Hc1. cbn [m_world m_disk].
  assert (Hct : count_ok (w_store (touched w1))) by exact Hc1.
  split; [exists o, w1; auto|].
  split; [apply dict_get_set_same|].
  split; [intros p Hp; now apply dict_get_set_other|].
  split; [exact Hct|].
  rewrite main_load_run. cbn [m_world m_disk]. rewrite dict_get_set_same.
  apply pyval_of_store_schema_ok, validate_store_schema_iff in Hct.
  unfold touched in Hct. cbn [w_store] in Hct. now rewrite Hct.
Qed.

Lemma main_dispatch_read_only_witness :
  let r := main_dispatch "store.json" (CmdGet " GitHub.com") one_machine in
  fst r = Done tt
  /\ m_world (snd r) = m_world one_machine
  /\ m_disk (snd r) = m_disk one_machine.
Proof.
  apply (main_dispatch_read_only "store.json" (CmdGet " GitHub.com") one_machine).
  reflexivity.
Defined.

Lemma main_dispatch_saves_valid_witness :
  let m' := snd (main_dispatch "store.json" (CmdAdd "GitLab.com" "bob" "hunter2")
                   one_machine) in
  let doc := pyval_of_store (w_store (m_world m')) in
  (exists o w1, op_of (CmdAdd "GitLab.com" "bob" "hunter2") = Some o
     /\ exec_op o (m_world one_machine) = (Done tt, w1)
     /\ m_world m' = touched w1)
  /\ dict_get "store.json" (m_disk m') = Some (JsonFile doc)
  /\ (forall p, p <> "store.json" ->
        dict_get p (m_disk m') = dict_get p (m_disk one_machine))
  /\ count_ok (w_store (m_world m'))
  /\ main_load "store.json" m' = (Done doc, m').
Proof.
  apply (main_dispatch_saves_valid "store.json"
           (CmdAdd "GitLab.com" "bob" "hunter2") one_machine
           (snd (main_dispatch "store.json" (CmdAdd "GitLab.com" "bob" "hunter2")
                   one_machine)));
    reflexivity.
Defined.

(* ================================================================== *)
(** ** Spelling of the site, and what no mutation touches *)

Lemma rstrip_all_space s : Str.all_space s = true -> Str.rstrip s = "".
Proof.
  induction s as [|c s IH]; [reflexivity|]. cbn [Str.all_space].
  intros H. apply andb_true_iff in H. destruct H as [Hc Hs].
  rewrite rstrip_cons, (IH Hs), Hc. reflexivity.
Qed.

Lemma lstrip_app_space ws s :
  Str.all_space ws = true -> Str.lstrip (ws ++ s) = Str.lstrip s.
Proof.
  induction ws as [|c ws IH]; [reflexivity|]. cbn [Str.all_space append].
  intros H. apply andb_true_iff in H. destruct H as [Hc Hs].
  cbn [Str.lstrip]. rewrite Hc. now apply IH.
Qed.

Lemma rstrip_app_space s ws :
  Str.all_space ws = true -> Str.rstrip (s ++ ws) = Str.rstrip s.
Proof.
  intros H. induction s as [|c s IH]; cbn [append].
  - now apply rstrip_all_space.
  - now rewrite !rstrip_cons, IH.
Qed.

Lemma lstrip_app_no_lead s t :
  s <> "" -> no_lead s -> Str.lstrip (s ++ t) = (s ++ t)%string.
Proof.
  destruct s as [|c s]; [congruence|]. cbn [no_lead append Str.lstrip].
  now intros _ ->.
Qed.

Lemma strip_app_space ws s ws' :
  Str.all_space ws = true -> Str.all_space ws' = true ->
  Str.strip (ws ++ s ++ ws') = Str.strip s.
Proof.
  intros H H'. unfold Str.strip. rewrite (lstrip_app_space _ _ H).
  destruct (Str.lstrip s) as [|c t] eqn:E.
  - assert (Hs : Str.all_space s = true).
    { clear -E. induction s as [|c s IH]; [reflexivity|].
      cbn [Str.lstrip] in E. cbn [Str.all_space].
      destruct (Str.isspace c); [now apply IH | discriminate]. }
    rewrite lstrip_all_space; [reflexivity|].
    clear -Hs H'. induction s as [|c s IH]; [exact H'|].
    cbn [Str.all_space append] in *. apply andb_true_iff in Hs.
    destruct Hs as [Hc Hs]. rewrite Hc. now apply IH.
  - assert (Hsplit : exists pre, s = (pre ++ String c t)%string
                       /\ Str.all_space pre = true).
    { clear -E. induction s as [|c0 s IH]; [discriminate|].
      cbn [Str.lstrip] in E. destruct (Str.isspace c0) eqn:Ec.
      - destruct (IH E) as [pre [-> Hpre]]. exists (String c0 pre).
        split; [reflexivity|]. cbn [Str.all_space]. now rewrite Ec.
      - exists "". split; [now rewrite E | reflexivity]. }
    destruct Hsplit as [pre [-> Hpre]].
    rewrite string_append_assoc, (lstrip_app_space _ _ Hpre).
    pose proof (lstrip_no_lead (pre ++ String c t)) as Hnl. rewrite E in Hnl.
    rewrite (lstrip_app_no_lead (String c t) ws'); [|discriminate|exact Hnl].
    now apply rstrip_app_space.
Qed.

(** X24. Neither white space around the site nor the case of its letters
    matters to [normalize_site]: two sites with the same lower-cased text
    give the same key whatever white space surrounds the first; and
    normalizing a key again gives the key. *)
Theorem normalize_site_insensitive (s s' ws ws' : string) :
  Str.lower s = Str.lower s' ->
  Str.all_space ws = true -> Str.all_space ws' = true ->
  normalize_site (ws ++ s ++ ws') = normalize_site s'
  /\ normalize_site (normalize_site s) = normalize_site s.
Proof.
  intros Hl H H'. split; [|apply normalize_site_idem].
  unfold normalize_site. rewrite (strip_app_space _ _ _ H H').
  now rewrite <- !strip_lower, Hl.
Qed.

Lemma normalize_site_insensitive_witness :
  normalize_site ("  " ++ "EXAMPLE.com" ++ " ") = normalize_site "Example.COM"
  /\ normalize_site (normalize_site "EXAMPLE.com") = normalize_site "EXAMPLE.com".
Proof.
  apply (normalize_site_insensitive "EXAMPLE.com" "Example.COM" "  " " ");
    reflexivity.
Defined.

Lemma exec_op_keeps_origin o w :
  version (metadata (w_store (snd (exec_op o w)))) = version (metadata (w_store w))
  /\ created_at (metadata (w_store (snd (exec_op o w))))
     = created_at (metadata (w_store w)).
Proof.
  destruct o as [site u p|site u p|site]; simpl exec_op.
  - destruct site as [site|]; [|split; reflexivity].
    rewrite add_entry_run. cbv zeta.
    destruct (negb (Str.truthy u) || negb (Str.truthy p)); [split; reflexivity|].
    destruct (dict_in (normalize_site site) (entries (w_store w)));
      split; reflexivity.
  - destruct site as [site|]; [|split; reflexivity].
    rewrite update_entry_run. cbv zeta.
    destruct u as [[|c u]|], p as [[|c' p]|]; try (split; reflexivity);
      destruct (dict_in (normalize_site site) (entries (w_store w)));
      cbn [negb snd]; try (split; reflexivity);
      rewrite ?stamped_metadata, ?rewritten_metadata; split; reflexivity.
  - destruct site as [site|]; [|split; reflexivity].
    rewrite delete_entry_run. cbv zeta.
    destruct (dict_in (normalize_site site) (entries (w_store w)));
      split; reflexivity.
Qed.

(** X25. No call of add, update or delete changes [metadata.version] or
    [metadata.created_at]: after each call of any sequence they are what
    they were at the start. *)
Theorem origin_never_changes (ops : list op) (w : World) :
  Forall (fun w' =>
            version (metadata (w_store w')) = version (metadata (w_store w))
            /\ created_at (metadata (w_store w'))
               = created_at (metadata (w_store w)))
         (trace ops w).
Proof.
  assert (H : forall w0,
            version (metadata (w_store w0)) = version (metadata (w_store w))
            /\ created_at (metadata (w_store w0))
               = created_at (metadata (w_store w)) ->
            Forall (fun w' =>
              version (metadata (w_store w')) = version (metadata (w_store w))
              /\ created_at (metadata (w_store w'))
                 = created_at (metadata (w_store w)))
              (trace ops w0)).
  { induction ops as [|o ops IH]; intros w0 [Hv Hc]; simpl; [constructor|].
    destruct (exec_op_keeps_origin o w0) as [Hv' Hc'].
    destruct (exec_op o w0) as [[[]|msg|key] w']; simpl in Hv', Hc';
      rewrite Hv in Hv'; rewrite Hc in Hc'.
    - constructor; [now split | apply IH; now split].
    - constructor; [now split | constructor].
    - constructor; [now split | constructor]. }
  apply H. now split.
Qed.
